(** * Headlamp Sealed Secrets plugin: controller client, API-version resolver,
      scope getter and the hybrid sealing envelope

    A shallow embedding of
      - [src/lib/controller.ts]  (proxy URL, certificate fetch, health probe,
        persisted configuration),
      - [src/lib/SealedSecretCRD.ts]  (scope getter, API-version detection and
        its process-wide cache),
    together with the two collaborators whose sources are not part of the
    tree at hand and are therefore modelled from the specification: the
    Result type / retry driver and the hybrid sealing engine.

    Asynchronous code is modelled in a small state-and-exception monad over
    an explicit runtime state; the platform (network, clock, randomness) is
    an oracle record that the code can only consult through the primitives
    below. *)

From Stdlib Require Import ZArith NArith Lia List Ascii String.
From Stdlib.Strings Require Import Byte.
From stdpp Require Import base option gmap strings list pretty.

Open Scope string_scope.
Open Scope Z_scope.

(* ===================================================================== *)
(** * Part I: the model                                                    *)
(* ===================================================================== *)

(** ** JavaScript values used by the code *)
Module Js.

(** An exception object; the code only ever reads [name] and [message]. *)
Record JsError := mkError { name : string; message : string }.

(** [new Error(msg)] *)
Definition Error (msg : string) : JsError :=
  {| name := "Error"; message := msg |}.

(** [TypeError], what [fetch] rejects with on a network error. *)
Definition TypeError (msg : string) : JsError :=
  {| name := "TypeError"; message := msg |}.

(** The [DOMException] an aborted [fetch] rejects with. *)
Definition AbortError (msg : string) : JsError :=
  {| name := "AbortError"; message := msg |}.

(** Truthiness of a string: only the empty string is falsy. *)
Definition truthy (s : string) : bool :=
  match s with
  | EmptyString => false
  | String _ _ => true
  end.

(** [x || undefined] on a [string | null]: falsy values become absent. *)
Definition or_undefined (o : option string) : option string :=
  match o with
  | Some s => if truthy s then Some s else None
  | None => None
  end.

(** [String(n)] for an integer-valued Number below 1e21 in magnitude (the
    range in which JavaScript prints plain decimal digits); ports and HTTP
    status codes live there. *)
Definition Number_toString (n : Z) : string := pretty n.

(** The operands of the string-building expressions of the code. *)
Inductive Prim :=
| PStr (s : string)
| PNum (n : Z).

Definition ToString (v : Prim) : string :=
  match v with
  | PStr s => s
  | PNum n => Number_toString n
  end.

(** The binary [+] operator: numeric addition on two numbers, string
    concatenation as soon as one operand is a string. *)
Definition plus (a b : Prim) : Prim :=
  match a, b with
  | PNum x, PNum y => PNum (x + y)
  | _, _ => PStr (ToString a +:+ ToString b)
  end.

(** A template literal [`c0${e1}c1...`]: every hole is converted with
    ToString and the pieces are concatenated. *)
Definition template (parts : list Prim) : string :=
  String.concat "" (ToString <$> parts).

(** ASCII lower-casing, as done by [Headers] on header names. *)
Definition lower_ascii (c : ascii) : ascii :=
  let n := nat_of_ascii c in
  if ((65 <=? n) && (n <=? 90))%nat then ascii_of_nat (n + 32) else c.

Fixpoint toLowerCase (s : string) : string :=
  match s with
  | EmptyString => EmptyString
  | String c r => String (lower_ascii c) (toLowerCase r)
  end.

End Js.

(** ** The Result type *)
Module Result.

(** Modelled from the spec: [types.ts] (the Result container with its [Ok]
    and [Err] constructors) is not in the tree; section 4.1 describes it
    as the tagged union [{ok: true, value: T} | {ok: false, error: E}]. *)
Inductive Result (T E : Type) :=
| Ok (value : T)
| Err (error : E).
Arguments Ok {T E} value.
Arguments Err {T E} error.

End Result.

(** ** HTTP responses and the custom-resource definition they may carry *)
Module Http.
Import Js.

(** One entry of [spec.versions] of a CustomResourceDefinition. *)
Record CRDVersion := mkVersion {
  vname : string;
  served : bool;
  storage : bool
}.

(** [crd.spec]; [versions] is optional, as the [?.] of the code allows. *)
Record CRDSpec := mkCRDSpec {
  group : string;
  versions : option (list CRDVersion)
}.

(** The object [response.json()] yields for the definition query. *)
Record CRD := mkCRD { spec : option CRDSpec }.

(** A [Response].  [headers] is keyed by lower-cased header name, values
    already combined; [text] is what [response.text()] resolves to and
    [json] what [response.json()] settles with (the parsed definition, or
    the error it rejects with). *)
Record Response := mkResponse {
  status : Z;
  statusText : string;
  headers : gmap string string;
  text : string;
  json : JsError + CRD
}.

(** [response.ok]: the status is in the range 200-299. *)
Definition ok (r : Response) : bool :=
  (200 <=? status r) && (status r <=? 299).

(** [response.headers.get(name)] *)
Definition headers_get (r : Response) (name : string) : option string :=
  headers r !! toLowerCase name.

(** What the network does with one request: answer after some
    milliseconds, fail after some milliseconds with a network error (which
    [fetch] reports as a [TypeError] carrying an implementation-defined
    message), or never settle. *)
Inductive FetchOutcome :=
| Resolves (after : Z) (r : Response)
| Rejects (after : Z) (msg : string)
| Hangs.

Record Request := mkRequest {
  method : string;
  url : string;
  (* the delay of the abort timer wired to the request's signal, if any *)
  deadline : option Z
}.

End Http.

(** ** The runtime: mutable state, platform oracle and the monad *)
Module Runtime.
Import Js Http.

(** The platform, as far as the code can observe it. *)
Record Env := mkEnv {
  (* outcome of the n-th request issued *)
  network : nat -> FetchOutcome;
  (* the n-th reading of [Date.now()] *)
  clock : nat -> Z;
  (* the n-th random jitter offset, in milliseconds *)
  noise : nat -> Z;
  (* message of the exception an aborted request rejects with *)
  abort_message : string
}.

Record State := mkState {
  (* [SealedSecret.detectedVersion] *)
  detectedVersion : option string;
  (* [window.localStorage] *)
  localStorage : gmap string string;
  (* requests issued so far, oldest first *)
  sent : list Request;
  (* delays slept so far, oldest first *)
  slept : list Z;
  (* number of [Date.now()] readings taken *)
  ticks : nat;
  (* number of random draws taken *)
  draws : nat;
  (* delay of the pending abort timer, if one is armed *)
  armed : option Z
}.

(** How an asynchronous computation ends. *)
Inductive Completion (A : Type) :=
| Returned (a : A)
| Threw (e : JsError)
| Pending.
Arguments Returned {A} a.
Arguments Threw {A} e.
Arguments Pending {A}.

Definition M (A : Type) : Type := Env -> State -> Completion A * State.

Definition ret {A} (a : A) : M A := fun _ s => (Returned a, s).

Definition bind {A B} (m : M A) (f : A -> M B) : M B :=
  fun env s =>
    match m env s with
    | (Returned a, s') => f a env s'
    | (Threw e, s') => (Threw e, s')
    | (Pending, s') => (Pending, s')
    end.

Definition throw {A} (e : JsError) : M A := fun _ s => (Threw e, s).

(** [try { m } catch (e) { h e }] *)
Definition try_catch {A} (m : M A) (h : JsError -> M A) : M A :=
  fun env s =>
    match m env s with
    | (Threw e, s') => h e env s'
    | r => r
    end.

#[global] Instance M_ret : MRet M := @ret.
#[global] Instance M_bind : MBind M := fun A B f m => bind m f.

(** *** State accessors *)
Definition set_detectedVersion (v : option string) (s : State) : State :=
  {| detectedVersion := v; localStorage := localStorage s; sent := sent s;
     slept := slept s; ticks := ticks s; draws := draws s; armed := armed s |}.

Definition set_localStorage (l : gmap string string) (s : State) : State :=
  {| detectedVersion := detectedVersion s; localStorage := l; sent := sent s;
     slept := slept s; ticks := ticks s; draws := draws s; armed := armed s |}.

Definition log_request (q : Request) (s : State) : State :=
  {| detectedVersion := detectedVersion s; localStorage := localStorage s;
     sent := sent s ++ [q];
     slept := slept s; ticks := ticks s; draws := draws s; armed := armed s |}.

Definition log_sleep (ms : Z) (s : State) : State :=
  {| detectedVersion := detectedVersion s; localStorage := localStorage s;
     sent := sent s; slept := slept s ++ [ms];
     ticks := ticks s; draws := draws s; armed := armed s |}.

Definition tick (s : State) : State :=
  {| detectedVersion := detectedVersion s; localStorage := localStorage s;
     sent := sent s; slept := slept s;
     ticks := S (ticks s); draws := draws s; armed := armed s |}.

Definition draw (s : State) : State :=
  {| detectedVersion := detectedVersion s; localStorage := localStorage s;
     sent := sent s; slept := slept s;
     ticks := ticks s; draws := S (draws s); armed := armed s |}.

Definition set_armed (t : option Z) (s : State) : State :=
  {| detectedVersion := detectedVersion s; localStorage := localStorage s;
     sent := sent s; slept := slept s;
     ticks := ticks s; draws := draws s; armed := t |}.

(** *** Platform primitives *)

(** [Date.now()] *)
Definition Date_now : M Z :=
  fun env s => (Returned (clock env (ticks s)), tick s).

(** A random jitter offset. *)
Definition random_offset : M Z :=
  fun env s => (Returned (noise env (draws s)), draw s).

(** [await new Promise(r => setTimeout(r, ms))] *)
Definition sleep (ms : Z) : M unit :=
  fun _ s => (Returned tt, log_sleep ms s).

(** [setTimeout(() => controller.abort(), ms)] *)
Definition setTimeout_abort (ms : Z) : M unit :=
  fun _ s => (Returned tt, set_armed (Some ms) s).

(** [clearTimeout(timeoutId)] *)
Definition clearTimeout : M unit :=
  fun _ s => (Returned tt, set_armed None s).

(** [await fetch(url, {method})], without a signal: the promise settles
    when the network does, and not at all if the network never does. *)
Definition fetch (meth url : string) : M Response :=
  fun env s =>
    let s' := log_request (mkRequest meth url None) s in
    match network env (length (sent s)) with
    | Resolves _ r => (Returned r, s')
    | Rejects _ msg => (Threw (TypeError msg), s')
    | Hangs => (Pending, s')
    end.

(** [await fetch(url, {method, signal: controller.signal})] while the abort
    timer may be armed: whatever has not settled strictly before the timer
    fires is aborted, and the promise then rejects with an [AbortError]. *)
Definition fetch_with_signal (meth url : string) : M Response :=
  fun env s =>
    let s' := log_request (mkRequest meth url (armed s)) s in
    let aborted := (Threw (AbortError (abort_message env)), set_armed None s') in
    let in_time (after : Z) : bool :=
      match armed s with
      | Some ms => after <? ms
      | None => true
      end in
    match network env (length (sent s)), armed s with
    | Resolves after r, _ =>
        if in_time after then (Returned r, s') else aborted
    | Rejects after msg, _ =>
        if in_time after then (Threw (TypeError msg), s') else aborted
    | Hangs, Some _ => aborted
    | Hangs, None => (Pending, s')
    end.

(** [await response.json()] *)
Definition response_json (r : Response) : M CRD :=
  match json r with
  | inl e => throw e
  | inr crd => ret crd
  end.

(** [localStorage.getItem(key)] *)
Definition localStorage_getItem (key : string) : M (option string) :=
  fun _ s => (Returned (localStorage s !! key), s).

(** Modelled from the spec: [tryCatchAsync] of [types.ts] is not in the
    tree; by section 4.1 an exception thrown by the wrapped operation is
    caught at the boundary and converted into the failure variant, and a
    normal return becomes the success variant. *)
Definition tryCatchAsync {T} (op : M T) : M (Result.Result T JsError) :=
  try_catch (v ← op; mret (Result.Ok v)) (fun e => mret (Result.Err e)).

Definition initial_state : State :=
  {| detectedVersion := None; localStorage := ∅; sent := []; slept := [];
     ticks := 0; draws := 0; armed := None |}.

End Runtime.

(** ** [src/lib/controller.ts]: the controller client *)
Module Controller.
Import Js Http Runtime.
Import Result.

(** [PluginConfig] of [types.ts], with the fields the code destructures. *)
Record PluginConfig := mkConfig {
  controllerName : string;
  controllerNamespace : string;
  controllerPort : Z
}.

(** Modelled from the spec: the branded string type [PEMCertificate] and
    its constructor live in [types.ts], which is not in the tree; section 3
    calls it a distinguished string type wrapping the PEM text. *)
Definition PEMCertificate (value : string) : string := value.

Record ControllerHealthStatus := mkHealth {
  healthy : bool;
  reachable : bool;
  version : option string;
  latencyMs : option Z;
  error : option string
}.

(** Build the controller proxy URL. *)
Definition getControllerProxyURL (config : PluginConfig) (path : string) : string :=
  let controllerNamespace := controllerNamespace config in
  let controllerName := controllerName config in
  let controllerPort := controllerPort config in
  template [PStr "/api/v1/namespaces/"; PStr controllerNamespace;
            PStr "/services/http:"; PStr controllerName;
            PStr ":"; PNum controllerPort;
            PStr "/proxy"; PStr path].

(** The string of the proxy path convention, written with the binary [+]
    operator from left to right. *)
Definition proxy_path_by_concatenation (config : PluginConfig) (path : string) : Prim :=
  plus (plus (plus (plus (plus (plus (plus
    (PStr "/api/v1/namespaces/") (PStr (controllerNamespace config)))
    (PStr "/services/http:")) (PStr (controllerName config)))
    (PStr ":")) (PNum (controllerPort config)))
    (PStr "/proxy")) (PStr path).

(** Fetch the controller's public certificate (internal, no retry). *)
Definition fetchPublicCertificateOnce (config : PluginConfig)
  : M (Result string string) :=
  let url := getControllerProxyURL config "/v1/cert.pem" in
  result ← tryCatchAsync (
    response ← fetch "GET" url;
    if negb (ok response) then
      throw (Error (template [PStr "Failed to fetch certificate: ";
                              PNum (status response); PStr " ";
                              PStr (statusText response)]))
    else
      mret (PEMCertificate (text response)));
  match result with
  | Err e => mret (Err ("Unable to fetch controller certificate: " +:+ message e))
  | Ok v => mret (Ok v)
  end.

(** *** The retry driver *)

(** The options object handed to the driver by [fetchPublicCertificate]. *)
Record RetryOptions := mkRetry {
  maxAttempts : nat;
  initialDelayMs : Z;
  maxDelayMs : Z
}.

(** Modelled from the spec: the delay actually slept.  Section 4.2 only
    constrains the jitter (the delay never drops below zero and never
    exceeds the cap), so the random offset is clamped to that interval. *)
Definition jittered (delay cap offset : Z) : Z :=
  Z.max 0 (Z.min cap (delay + offset)).

(** Modelled from the spec: one attempt followed by at most [retries]
    further ones.  A success is returned at once; after a failure with
    attempts remaining the driver sleeps for the jittered delay, doubles
    the delay up to the cap and tries again; the last failure is the
    overall failure. *)
Fixpoint retry_loop {T E} (operation : M (Result T E))
    (retries : nat) (delay cap : Z) : M (Result T E) :=
  r ← operation;
  match r with
  | Ok v => mret (Ok v)
  | Err e =>
      match retries with
      | O => mret (Err e)
      | S k =>
          offset ← random_offset;
          sleep (jittered delay cap offset);;
          retry_loop operation k (Z.min cap (2 * delay)) cap
      end
  end.

(** Modelled from the spec: [retryWithBackoff] of [lib/retry.ts] is not in
    the tree; this is the driver of section 4.2,
    [retry(operation, {maxAttempts, initialDelayMs, maxDelayMs})]. *)
Definition retryWithBackoff {T E} (operation : M (Result T E))
    (options : RetryOptions) : M (Result T E) :=
  retry_loop operation (pred (maxAttempts options))
    (Z.min (maxDelayMs options) (initialDelayMs options))
    (maxDelayMs options).

(** Fetch the controller's public certificate with retry logic. *)
Definition fetchPublicCertificate (config : PluginConfig)
  : M (Result string string) :=
  retryWithBackoff (fetchPublicCertificateOnce config)
    {| maxAttempts := 3; initialDelayMs := 1000; maxDelayMs := 10000 |}.

(** The request of one attempt. *)
Definition certificate_request (config : PluginConfig) : Request :=
mkRequest "GET" (getControllerProxyURL config "/v1/cert.pem") None.

(** The failures of one attempt, in the words of the spec: a response
  outside 200-299, or a transport failure; the message is the one of the
  exception raised inside the attempt. *)
Definition attempt_failure (o : FetchOutcome) : option string :=
match o with
| Resolves _ r =>
    if ok r then None
    else Some ("Failed to fetch certificate: " +:+ Number_toString (status r)
               +:+ " " +:+ statusText r)
| Rejects _ msg => Some msg
| Hangs => None
end.

(** *** Persisted configuration *)

(** A parsed JSON document, the value [JSON.parse] returns. *)
#[warnings="-register-all"] Inductive Json :=
| JNull
| JBool (b : bool)
| JNum (n : Z)
| JStr (s : string)
| JArr (items : list Json)
| JObj (fields : list (string * Json)).

(** The object literal of a configuration. *)
Definition config_object (c : PluginConfig) : Json :=
  JObj [("controllerName", JStr (controllerName c));
        ("controllerNamespace", JStr (controllerNamespace c));
        ("controllerPort", JNum (controllerPort c))].

Definition default_config : PluginConfig :=
  {| controllerName := "sealed-secrets-controller";
     controllerNamespace := "kube-system";
     controllerPort := 8080 |}.

Definition CONFIG_KEY : string := "sealed-secrets-plugin-config".

Section WithJSON.
(** The platform's [JSON.parse]: the parsed value, or the [SyntaxError]
    it throws. *)
Variable JSON_parse : string -> JsError + Json.

Definition JSON_parse_M (s : string) : M Json :=
  match JSON_parse s with
  | inl e => throw e
  | inr v => mret v
  end.

(** Get plugin configuration from localStorage.  The value returned by
    [JSON.parse] is handed back as it is. *)
Definition getPluginConfig : M Json :=
  stored ← localStorage_getItem CONFIG_KEY;
  parsed ← match stored with
           | Some s =>
               if truthy s then
                 try_catch (v ← JSON_parse_M s; mret (Some v))
                           (fun _ => mret None)
               else mret None
           | None => mret None
           end;
  match parsed with
  | Some v => mret v
  | None => mret (config_object default_config)
  end.
End WithJSON.

(** *** Health probe *)

Definition HEALTH_TIMEOUT_MS : Z := 5000.
Definition TIMED_OUT_MESSAGE : string := "Request timed out after 5 seconds".
Definition UNREACHABLE_MESSAGE : string := "Controller unreachable".

(** Whether the abort timer of delay [ms] fires before the network has
  settled the request. *)
Definition deadline_fires (ms : Z) (o : FetchOutcome) : bool :=
match o with
| Resolves after _ => ms <=? after
| Rejects after _ => ms <=? after
| Hangs => true
end.

(** Check controller health and reachability. *)
Definition checkControllerHealth (config : PluginConfig)
  : M (Result ControllerHealthStatus string) :=
  startTime ← Date_now;
  try_catch (
    let url := getControllerProxyURL config "/healthz" in
    setTimeout_abort HEALTH_TIMEOUT_MS;;
    response ← fetch_with_signal "GET" url;
    clearTimeout;;
    now ← Date_now;
    let latencyMs := now - startTime in
    if negb (ok response) then
      mret (Ok {| healthy := false;
                  reachable := true;
                  version := None;
                  latencyMs := Some latencyMs;
                  error := Some (template [PStr "HTTP "; PNum (status response);
                                           PStr ": "; PStr (statusText response)]) |})
    else
      let version := or_undefined (headers_get response "X-Controller-Version") in
      mret (Ok {| healthy := true;
                  reachable := true;
                  version := version;
                  latencyMs := Some latencyMs;
                  error := None |}))
    (fun error =>
       now ← Date_now;
       let latencyMs := now - startTime in
       let errorMessage :=
         if String.eqb (name error) "AbortError" then TIMED_OUT_MESSAGE
         else if truthy (message error) then message error
         else UNREACHABLE_MESSAGE in
       mret (Ok {| healthy := false;
                   reachable := false;
                   version := None;
                   latencyMs := Some latencyMs;
                   error := Some errorMessage |})).

End Controller.

(** ** [src/lib/SealedSecretCRD.ts]: the SealedSecret resource class *)
Module SealedSecretCRD.
Import Js Http Runtime.
Import Result.

Inductive SealedSecretScope :=
  | strict
  | namespace_wide
  | cluster_wide.

(** The string each scope is in the source. *)
Definition scope_name (s : SealedSecretScope) : string :=
  match s with
  | strict => "strict"
  | namespace_wide => "namespace-wide"
  | cluster_wide => "cluster-wide"
  end.

(** [metadata] of a Kubernetes object; annotations map strings to strings
    and may be missing altogether. *)
Record ObjectMeta := mkMeta {
    meta_name : string;
    meta_namespace : string;
    annotations : option (gmap string string)
  }.

Record SealedSecret := mkSealedSecret {
    metadata : ObjectMeta;
    (* [spec.encryptedData] *)
    encryptedData : option (gmap string string)
  }.

Definition CLUSTER_WIDE_ANNOTATION : string := "sealedsecrets.bitnami.com/cluster-wide".
Definition NAMESPACE_WIDE_ANNOTATION : string := "sealedsecrets.bitnami.com/namespace-wide".

(** The value of an annotation of a resource, if it has one; a resource
    without an annotation map has none. *)
Definition annotation (this : SealedSecret) (key : string) : option string :=
  match annotations (metadata this) with
  | Some m => m !! key
  | None => None
  end.

(** Get the scope of this SealedSecret. *)
Definition scope (this : SealedSecret) : SealedSecretScope :=
  let annotations := default ∅ (annotations (metadata this)) in
  if bool_decide (annotations !! CLUSTER_WIDE_ANNOTATION = Some "true") then
    cluster_wide
  else if bool_decide (annotations !! NAMESPACE_WIDE_ANNOTATION = Some "true") then
    namespace_wide
  else
    strict.

Definition DEFAULT_VERSION : string := "bitnami.com/v1alpha1".

Definition CRD_URL : string :=
  "/apis/apiextensions.k8s.io/v1/customresourcedefinitions/sealedsecrets.bitnami.com".

Definition CRD_NOT_FOUND_MESSAGE : string :=
  "SealedSecrets CRD not found. Please install Sealed Secrets on the cluster.".

(** Reading and writing the static field [detectedVersion]. *)
Definition get_detectedVersion : M (option string) :=
  fun _ s => (Returned (detectedVersion s), s).

Definition put_detectedVersion (v : option string) : M unit :=
  fun _ s => (Returned tt, set_detectedVersion v s).

(** The versions a definition declares: none when [spec] or [versions] is
    missing. *)
Definition declared_versions (crd : CRD) : list CRDVersion :=
  match spec crd with
  | Some s => default [] (versions s)
  | None => []
  end.

(** The request [detectApiVersion] sends. *)
Definition definition_request : Request := mkRequest "GET" CRD_URL None.

(** [crd.spec?.versions?.find(p)] *)
Definition find_version (p : CRDVersion -> bool) (crd : CRD) : option CRDVersion :=
  match spec crd with
  | Some s =>
      match versions s with
      | Some vs => List.find p vs
      | None => None
      end
  | None => None
  end.

(** [`${crd.spec.group}/${v.name}`]; reading [group] off a missing [spec]
    is a TypeError. *)
Definition version_string (crd : CRD) (v : CRDVersion) : M string :=
  match spec crd with
  | Some s => mret (template [PStr (group s); PStr "/"; PStr (vname v)])
  | None => throw (TypeError "Cannot read properties of undefined (reading 'group')")
  end.

(** The body of the closure handed to [tryCatchAsync] in
    [detectApiVersion]. *)
Definition query_definition : M string :=
  response ← fetch "GET" CRD_URL;
  (if negb (ok response) then
     if status response =? 404 then
       throw (Error CRD_NOT_FOUND_MESSAGE)
     else
       throw (Error (template [PStr "Failed to fetch CRD: "; PNum (status response);
                               PStr " "; PStr (statusText response)]))
   else mret tt);;
  crd ← response_json response;
  match find_version storage crd with
  | Some storageVersion =>
      version ← version_string crd storageVersion;
      put_detectedVersion (Some version);;
      mret version
  | None =>
      match find_version served crd with
      | Some servedVersion =>
          version ← version_string crd servedVersion;
          put_detectedVersion (Some version);;
          mret version
      | None => mret DEFAULT_VERSION
      end
  end.

(** The part of [detectApiVersion] after the cache check. *)
Definition detect_from_cluster : M (Result string string) :=
  result ← tryCatchAsync query_definition;
  match result with
  | Err e => mret (Err (message e))
  | Ok value => mret (Ok value)
  end.

(** Detect the API version available in the cluster. *)
Definition detectApiVersion : M (Result string string) :=
  cached ← get_detectedVersion;
  match cached with
  | Some v => if truthy v then mret (Ok v) else detect_from_cluster
  | None => detect_from_cluster
  end.

(** Get the detected API version. *)
Definition getDetectedVersion : M (option string) := get_detectedVersion.

(** Clear the cached API version. *)
Definition clearVersionCache : M unit := put_detectedVersion None.

(** The cache as the state machine of the resolver. *)
Inductive CacheState :=
  | Unresolved
  | Resolved (version : string).

(** A falsy cached value (null, or the empty string) is as good as none:
    the guard of [detectApiVersion] tests truthiness. *)
Definition cache_state (s : State) : CacheState :=
  match detectedVersion s with
  | Some v => if truthy v then Resolved v else Unresolved
  | None => Unresolved
  end.

(** What can happen to the runtime state: a detection, a cache clear, or
    any other activity, which cannot write the private static field. *)
Inductive ResolverStep (env : Env) : State -> State -> Prop :=
  | step_detect s c s' :
      detectApiVersion env s = (c, s') -> ResolverStep env s s'
  | step_clear s c s' :
      clearVersionCache env s = (c, s') -> ResolverStep env s s'
  | step_other s s' :
      detectedVersion s' = detectedVersion s -> ResolverStep env s s'.

(** The states of a run: the field starts out as [null]. *)
Inductive Reachable (env : Env) : State -> Prop :=
  | reach_init s : detectedVersion s = None -> Reachable env s
  | reach_step s s' : Reachable env s -> ResolverStep env s s' -> Reachable env s'.

End SealedSecretCRD.


(** ** The hybrid sealing engine *)
Module Sealing.

Definition bytes : Type := list byte.

(** *** Base64 *)

Definition BASE64_ALPHABET : string :=
  "ABCDEFGHIJKLMNOPQRSTUVWXYZabcdefghijklmnopqrstuvwxyz0123456789+/".

Definition PAD : ascii := "="%char.

(** Modelled from the spec: the Base64 of step 4 (the engine,
    [lib/crypto.ts], is not in the tree).  The character of a six-bit
    value. *)
Definition sextet_char (n : N) : ascii :=
  match String.get (N.to_nat n) BASE64_ALPHABET with
  | Some c => c
  | None => PAD
  end.

(** The six-bit value of a character of the alphabet. *)
Definition char_sextet (c : ascii) : option N :=
  let n := N_of_ascii c in
  if ((65 <=? n) && (n <=? 90))%N then Some (n - 65)%N
  else if ((97 <=? n) && (n <=? 122))%N then Some (n - 71)%N
  else if ((48 <=? n) && (n <=? 57))%N then Some (n + 4)%N
  else if (n =? 43)%N then Some 62%N
  else if (n =? 47)%N then Some 63%N
  else None.

(** The check that a six-bit value survives the two tables and is never
    written as the padding character. *)
Definition sextet_ok (k : nat) : bool :=
  let n := N.of_nat k in
  match char_sextet (sextet_char n) with
  | Some m => N.eqb m n && negb (Ascii.eqb (sextet_char n) PAD)
  | None => false
  end.

(** Modelled from the spec: the sealing engine ([lib/crypto.ts]) is not in
    the tree; step 4 of section 4.5 stores the envelope Base64-encoded.
    This is the standard alphabet with padding: three bytes become four
    characters, and a last group of one or two bytes is padded with "=". *)
Fixpoint base64_encode (data : bytes) : string :=
  match data with
  | [] => EmptyString
  | [a] =>
      let x := Byte.to_N a in
      String (sextet_char (x / 4)) (String (sextet_char ((x mod 4) * 16))
        (String PAD (String PAD EmptyString)))
  | [a; b] =>
      let x := Byte.to_N a in
      let y := Byte.to_N b in
      String (sextet_char (x / 4)) (String (sextet_char ((x mod 4) * 16 + y / 16))
        (String (sextet_char ((y mod 16) * 4)) (String PAD EmptyString)))
  | a :: b :: c :: rest =>
      let x := Byte.to_N a in
      let y := Byte.to_N b in
      let z := Byte.to_N c in
      String (sextet_char (x / 4)) (String (sextet_char ((x mod 4) * 16 + y / 16))
        (String (sextet_char ((y mod 16) * 4 + z / 64))
          (String (sextet_char (z mod 64)) (base64_encode rest))))
  end%N.

(** Modelled from the spec: the decoder the peer applies to the stored
    field; it accepts exactly the padded encoding above. *)
Fixpoint base64_decode (s : string) : option bytes :=
  match s with
  | EmptyString => Some []
  | String c0 (String c1 (String c2 (String c3 rest))) =>
      s0 ← char_sextet c0;
      s1 ← char_sextet c1;
      b0 ← Byte.of_N (s0 * 4 + s1 / 16);
      if Ascii.eqb c2 PAD then
        if Ascii.eqb c3 PAD && String.eqb rest EmptyString then Some [b0] else None
      else
        s2 ← char_sextet c2;
        b1 ← Byte.of_N ((s1 mod 16) * 16 + s2 / 4);
        if Ascii.eqb c3 PAD then
          if String.eqb rest EmptyString then Some [b0; b1] else None
        else
          s3 ← char_sextet c3;
          b2 ← Byte.of_N ((s2 mod 4) * 64 + s3);
          tail ← base64_decode rest;
          Some (b0 :: b1 :: b2 :: tail)
  | _ => None
  end%N.

(** *** The length prefix *)

(** Modelled from the spec: the fixed-width big-endian length prefix of
    step 4, [n] written on [width] bytes (the low-order bytes of [n] when it
    does not fit). *)
Fixpoint be_encode (width : nat) (n : N) : bytes :=
  match width with
  | O => []
  | S w =>
      (be_encode w (n / 256) ++
       [match Byte.of_N (n mod 256) with Some b => b | None => "000"%byte end])%list
  end%N.

Definition be_decode (data : bytes) : N :=
  fold_left (fun acc b => (acc * 256 + Byte.to_N b)%N) data 0%N.

(** [split_exact n data]: the first [n] bytes and the rest, if there are
    that many. *)
Definition split_exact (n : nat) (data : bytes) : option (bytes * bytes) :=
  if (n <=? length data)%nat then Some (take n data, drop n data) else None.

(** *** Exclusive or *)

Definition byte_xor (a b : byte) : byte :=
  let '(a0, (a1, (a2, (a3, (a4, (a5, (a6, a7))))))) := Byte.to_bits a in
  let '(b0, (b1, (b2, (b3, (b4, (b5, (b6, b7))))))) := Byte.to_bits b in
  Byte.of_bits (xorb a0 b0, (xorb a1 b1, (xorb a2 b2, (xorb a3 b3,
               (xorb a4 b4, (xorb a5 b5, (xorb a6 b6, xorb a7 b7))))))).

Definition xor_bytes (a b : bytes) : bytes := zip_with byte_xor a b.

Fixpoint bytes_eqb (a b : bytes) : bool :=
  match a, b with
  | [], [] => true
  | x :: a', y :: b' => Byte.eqb x y && bytes_eqb a' b'
  | _, _ => false
  end.

(** *** The primitives *)

(** Modelled from the spec: the engine ([lib/crypto.ts]) is not in the
    tree.  These are the building blocks that section 4.5 names and does not
    define: the RSA operation with the public and with the private key, on
    byte strings of the size of the modulus; the hash and the mask
    generation function that the OAEP padding is built from; and the
    authenticated cipher, keyed by the session key, with a nonce and
    associated data.  The peer's side of each is the oracle of the spec. *)
Record Primitives := mkPrimitives {
    PublicKey : Type;
    PrivateKey : Type;
    (* size of the RSA modulus, in bytes *)
    modulus_bytes : nat;
    (* size of a digest, in bytes *)
    digest_bytes : nat;
    Hash : bytes -> bytes;
    (* seed, length of the mask *)
    MGF : bytes -> nat -> bytes;
    RSAEP : PublicKey -> bytes -> bytes;
    RSADP : PrivateKey -> bytes -> bytes;
    (* key, nonce, associated data, plaintext: ciphertext with tag *)
    aead_seal : bytes -> bytes -> bytes -> bytes -> bytes;
    (* key, nonce, associated data, ciphertext with tag *)
    aead_open : bytes -> bytes -> bytes -> bytes -> option bytes
  }.

(** Modelled from the spec: what makes a key pair valid for the oracle of
    section 8.  On a message of the size of the modulus whose first byte is
    zero (a number below the modulus), the public operation gives a byte
    string of that size, and the private operation takes it back. *)
Definition key_pair (P : Primitives) (pub : PublicKey P) (priv : PrivateKey P) : Prop :=
  forall em rest,
    em = "000"%byte :: rest -> length em = modulus_bytes P ->
    length (RSAEP P pub em) = modulus_bytes P
    /\ RSADP P priv (RSAEP P pub em) = em.

(** Modelled from the spec: digests and masks have the length asked for. *)
Definition hash_length (P : Primitives) : Prop :=
  forall data, length (Hash P data) = digest_bytes P.

Definition mask_length (P : Primitives) : Prop :=
  forall seed n, length (MGF P seed n) = n.


(** *** OAEP *)

(** Modelled from the spec: step 3 of section 4.5 encrypts the session key
    "using an OAEP padding scheme, with the same label supplied as the OAEP
    label parameter".  This is the encoding of that scheme (PKCS #1 v2,
    EME-OAEP): the digest of the label, zero padding, a byte 01 and the
    message form the data block; the data block is masked from the seed and
    the seed from the masked data block.  A message too long for the
    modulus, or a seed that is not of digest size, aborts the operation. *)
Definition oaep_encode (P : Primitives) (label seed m : bytes) : option bytes :=
  let k := modulus_bytes P in
  let hLen := digest_bytes P in
  if (length m + 2 * hLen + 2 <=? k)%nat && (length seed =? hLen)%nat then
    let lHash := Hash P label in
    let PS := replicate (k - length m - 2 * hLen - 2) "000"%byte in
    let DB := (lHash ++ PS ++ "001"%byte :: m)%list in
    let dbMask := MGF P seed (k - hLen - 1) in
    let maskedDB := xor_bytes DB dbMask in
    let seedMask := MGF P maskedDB hLen in
    let maskedSeed := xor_bytes seed seedMask in
    Some ("000"%byte :: maskedSeed ++ maskedDB)%list
  else None.

(** Modelled from the spec: the end of the peer's decoding, the message
    behind the padding of a data block (zero bytes up to the byte 01). *)
Fixpoint after_padding (data : bytes) : option bytes :=
  match data with
  | b :: rest =>
      if Byte.eqb b "000"%byte then after_padding rest
      else if Byte.eqb b "001"%byte then Some rest
      else None
  | [] => None
  end.

(** Modelled from the spec: the peer's decoding.  The masks are taken off
    in the reverse order, and the message is given out only if the first
    byte is zero and the data block starts with the digest of the label
    that the peer was given. *)
Definition oaep_decode (P : Primitives) (label em : bytes) : option bytes :=
  let k := modulus_bytes P in
  let hLen := digest_bytes P in
  match em with
  | Y :: body =>
      let maskedSeed := take hLen body in
      let maskedDB := drop hLen body in
      let seedMask := MGF P maskedDB hLen in
      let seed := xor_bytes maskedSeed seedMask in
      let dbMask := MGF P seed (k - hLen - 1) in
      let DB := xor_bytes maskedDB dbMask in
      if Byte.eqb Y "000"%byte && bytes_eqb (take hLen DB) (Hash P label)
      then after_padding (drop hLen DB)
      else None
  | [] => None
  end.

(** Modelled from the spec: RSA encryption with OAEP padding and a label
    (key, label, randomness of the padding, message). *)
Definition rsa_oaep_encrypt (P : Primitives) (pub : PublicKey P)
    (label seed m : bytes) : option bytes :=
  em ← oaep_encode P label seed m;
  Some (RSAEP P pub em).

(** Modelled from the spec: the peer's decryption (key, label,
    ciphertext). *)
Definition rsa_oaep_decrypt (P : Primitives) (priv : PrivateKey P)
    (label c : bytes) : option bytes :=
  if (length c =? modulus_bytes P)%nat
     && (2 * digest_bytes P + 2 <=? modulus_bytes P)%nat
  then oaep_decode P label (RSADP P priv c)
  else None.

(** Modelled from the spec: the fixed widths of the envelope, which
    section 4.5 leaves as constants shared with the peer. *)
Record Format := mkFormat {
    prefix_width : nat;
    nonce_width : nat
  }.

(** Modelled from the spec: the random values of step 1, drawn afresh for
    every value sealed. *)
Record Randomness := mkRandomness {
    session_key : bytes;
    nonce : bytes;
    padding_seed : bytes
  }.

(** *** Sealing and unsealing *)

(** Modelled from the spec: label derivation of section 3. *)
Definition deriveLabel (scope : SealedSecretCRD.SealedSecretScope)
    (namespace name : string) : string :=
  match scope with
  | SealedSecretCRD.strict => namespace +:+ "/" +:+ name
  | SealedSecretCRD.namespace_wide => namespace
  | SealedSecretCRD.cluster_wide => ""
  end.

(** Modelled from the spec: steps 2 to 4 of section 4.5.  The plaintext is
    sealed under the session key with the label as associated data; the
    session key is encrypted under the public key with the same label; the
    envelope is the length prefix of the encrypted session key, that key,
    the nonce and the ciphertext with its tag, Base64-encoded.  A failure of
    the construction aborts the operation. *)
Definition seal (F : Format) (P : Primitives) (pub : PublicKey P)
    (label : bytes) (rnd : Randomness) (plaintext : bytes) : option string :=
  let ciphertext := aead_seal P (session_key rnd) (nonce rnd) label plaintext in
  wrapped ← rsa_oaep_encrypt P pub label (padding_seed rnd) (session_key rnd);
  Some (base64_encode
          (be_encode (prefix_width F) (N.of_nat (length wrapped))
           ++ wrapped ++ nonce rnd ++ ciphertext)%list).

(** Modelled from the spec: the peer, reading the envelope back in the order
    it was written. *)
Definition unseal (F : Format) (P : Primitives) (priv : PrivateKey P)
    (label : bytes) (sealed : string) : option bytes :=
  envelope ← base64_decode sealed;
  '(prefix, rest) ← split_exact (prefix_width F) envelope;
  '(wrapped, rest) ← split_exact (N.to_nat (be_decode prefix)) rest;
  '(nonce, ciphertext) ← split_exact (nonce_width F) rest;
  key ← rsa_oaep_decrypt P priv label wrapped;
  aead_open P key nonce label ciphertext.

(** *** An instance to run the engine on

    It offers no secrecy; it has the shape of the real primitives (digests
    and ciphertexts of fixed size, a permutation of the numbers below a
    modulus with a public and a private factor) and serves to run the
    envelope code on concrete values. *)

Definition low_byte (n : N) : byte :=
  match Byte.of_N (n mod 256) with Some b => b | None => "000"%byte end.

(** A four-byte checksum. *)
Definition toy_hash (data : bytes) : bytes :=
  be_encode 4
    (fold_left (fun acc b => ((acc * 31 + Byte.to_N b + 1) mod 4294967296)%N) data 7%N).

Definition toy_mask (seed : bytes) (n : nat) : bytes :=
  map (fun i => low_byte (be_decode (toy_hash seed) * 7 + N.of_nat i * 13)) (seq 0 n).

Record ToyKey := mkToyKey { toy_modulus : N; toy_factor : N }.

(** Multiplication by the key's factor, modulo its modulus. *)
Definition toy_rsa (width : nat) (key : ToyKey) (data : bytes) : bytes :=
  be_encode width ((toy_factor key * be_decode data) mod toy_modulus key).

Definition toy_public : ToyKey :=
  {| toy_modulus := 39402006196394479212279040100143613805079739270465446667948293404245721771497210611414266254884915640806627990306499;
     toy_factor := 65537 |}.

Definition toy_private : ToyKey :=
  {| toy_modulus := 39402006196394479212279040100143613805079739270465446667948293404245721771497210611414266254884915640806627990306499;
     toy_factor := 11346782168005142227647623843172718057635685479217760577447672939230198315355705263732264934745914718234638296856044 |}.

(** A stream cipher with a checksum of key, nonce, associated data and
    ciphertext as its tag. *)
Definition toy_aead_seal (key nonce aad m : bytes) : bytes :=
  let ct := xor_bytes m (toy_mask (key ++ nonce)%list (length m)) in
  (ct ++ toy_hash (key ++ nonce ++ aad ++ ct))%list.

Definition toy_aead_open (key nonce aad data : bytes) : option bytes :=
  if (4 <=? length data)%nat then
    let n := (length data - 4)%nat in
    let ct := take n data in
    if bytes_eqb (drop n data) (toy_hash (key ++ nonce ++ aad ++ ct)%list)
    then Some (xor_bytes ct (toy_mask (key ++ nonce)%list n))
    else None
  else None.

Definition toy_primitives : Primitives :=
  {| PublicKey := ToyKey;
     PrivateKey := ToyKey;
     modulus_bytes := 48;
     digest_bytes := 4;
     Hash := toy_hash;
     MGF := toy_mask;
     RSAEP := toy_rsa 48;
     RSADP := toy_rsa 48;
     aead_seal := toy_aead_seal;
     aead_open := toy_aead_open |}.

Definition kubeseal_format : Format := {| prefix_width := 2; nonce_width := 12 |}.

Definition sample_randomness : Randomness :=
  {| session_key := list_byte_of_string "0123456789abcdef0123456789abcdef";
     nonce := list_byte_of_string "nonce-000001";
     padding_seed := list_byte_of_string "sd-1" |}.

Definition other_randomness : Randomness :=
  {| session_key := list_byte_of_string "fedcba9876543210fedcba9876543210";
     nonce := list_byte_of_string "nonce-000002";
     padding_seed := list_byte_of_string "sd-2" |}.

Definition greeting_label : bytes :=
  list_byte_of_string (deriveLabel SealedSecretCRD.strict "default" "greeting").


End Sealing.

(** ** Concrete platforms and resources, used to exercise the lemmas *)
Module Samples.
Import Js Http Runtime Result Controller SealedSecretCRD.

Definition no_body : JsError + CRD :=
  inl {| name := "SyntaxError"; message := "Unexpected end of JSON input" |}.

Definition healthz_200 : Response :=
  {| status := 200; statusText := "OK";
     headers := {[ "x-controller-version" := "0.24.0" ]};
     text := "ok"; json := no_body |}.

Definition healthz_503 : Response :=
  {| status := 503; statusText := "Service Unavailable";
     headers := ∅; text := ""; json := no_body |}.

(** A platform whose network treats every request the same way. *)
Definition constant_env (o : FetchOutcome) : Env :=
  {| network := fun _ => o;
     clock := fun n => 1000 + 7 * Z.of_nat n;
     noise := fun _ => 0;
     abort_message := "The operation was aborted." |}.

(** A platform whose network answers the requests with the outcomes of a
    script, in order, and hangs once the script is exhausted. *)
Definition scripted_env (script : list FetchOutcome) (jitter : list Z) : Env :=
  {| network := fun n => nth n script Hangs;
     clock := fun n => 1000 + 7 * Z.of_nat n;
     noise := fun n => nth n jitter 0;
     abort_message := "The operation was aborted." |}.

Definition both_annotations : SealedSecret :=
  {| metadata := {| meta_name := "db"; meta_namespace := "prod";
                    annotations := Some {[ CLUSTER_WIDE_ANNOTATION := "true";
                                           NAMESPACE_WIDE_ANNOTATION := "true" ]} |};
     encryptedData := None |}.

Definition namespace_annotation : SealedSecret :=
  {| metadata := {| meta_name := "db"; meta_namespace := "prod";
                    annotations := Some {[ CLUSTER_WIDE_ANNOTATION := "True";
                                           NAMESPACE_WIDE_ANNOTATION := "true" ]} |};
     encryptedData := None |}.

Definition odd_annotations : SealedSecret :=
  {| metadata := {| meta_name := "db"; meta_namespace := "prod";
                    annotations := Some {[ CLUSTER_WIDE_ANNOTATION := "yes";
                                           NAMESPACE_WIDE_ANNOTATION := "1" ]} |};
     encryptedData := None |}.

Definition no_annotations : SealedSecret :=
  {| metadata := {| meta_name := "db"; meta_namespace := "prod";
                    annotations := None |};
     encryptedData := None |}.

(** The definition of the spec's example: one version, served and stored. *)
Definition crd_v1alpha1 : CRD :=
  {| spec := Some {| group := "bitnami.com";
                     versions := Some [mkVersion "v1alpha1" true true] |} |}.

(** A definition that is being migrated: the stored version is not the
    first one served. *)
Definition crd_migrating : CRD :=
  {| spec := Some {| group := "bitnami.com";
                     versions := Some [mkVersion "v1alpha1" true false;
                                       mkVersion "v1beta1" true true;
                                       mkVersion "v1" false true] |} |}.

(** A definition with no stored version. *)
Definition crd_served_only : CRD :=
  {| spec := Some {| group := "bitnami.com";
                     versions := Some [mkVersion "v1alpha1" false false;
                                       mkVersion "v1beta1" true false] |} |}.

(** A definition that declares no version at all. *)
Definition crd_no_versions : CRD :=
  {| spec := Some {| group := "bitnami.com"; versions := Some [] |} |}.

Definition definition_response (crd : CRD) : Response :=
  {| status := 200; statusText := "OK"; headers := ∅;
     text := ""; json := inr crd |}.

Definition not_found_response : Response :=
  {| status := 404; statusText := "Not Found"; headers := ∅;
     text := "404 page not found"; json := no_body |}.

Definition forbidden_response : Response :=
  {| status := 403; statusText := "Forbidden"; headers := ∅;
     text := ""; json := no_body |}.

Definition sample_pem : string :=
  "-----BEGIN CERTIFICATE-----
MIIB
-----END CERTIFICATE-----
".

Definition certificate_response : Response :=
  {| status := 200; statusText := "OK"; headers := ∅;
     text := sample_pem; json := no_body |}.

(** The double-quote character, and a stored configuration written with it. *)
Definition dq : string := String (ascii_of_nat 34) EmptyString.

Definition stored_config_text : string :=
  "{" +:+ dq +:+ "controllerName" +:+ dq +:+ ":" +:+ dq +:+ "sealer" +:+ dq +:+ ","
  +:+ dq +:+ "controllerNamespace" +:+ dq +:+ ":" +:+ dq +:+ "ops" +:+ dq +:+ ","
  +:+ dq +:+ "controllerPort" +:+ dq +:+ ":9090}".

Definition stored_config : PluginConfig :=
  {| controllerName := "sealer"; controllerNamespace := "ops"; controllerPort := 9090 |}.

(** A stand-in for [JSON.parse] that knows two documents and rejects every
    other text, the empty one included. *)
Definition sample_JSON_parse (s : string) : JsError + Json :=
  if String.eqb s stored_config_text then inr (config_object stored_config)
  else if String.eqb s "null" then inr JNull
  else inl {| name := "SyntaxError"; message := "Unexpected token" |}.

Definition state_with_storage (stored : option string) : State :=
  set_localStorage
    (match stored with
     | Some text => {[ CONFIG_KEY := text ]}
     | None => ∅
     end) initial_state.

End Samples.

(** ** [src/lib/controller.ts]: verification, rotation, saving the configuration *)
Module ControllerOps.
Import Js Http Runtime Result Controller.

(** [await fetch(url, {method: 'POST', headers: {'Content-Type': ...}, body})].
    The request log of the runtime keeps the method and the URL of a
    request; the header and the body travel to the platform unread, and the
    platform's answer does not depend on them here. *)
Definition fetch_post (url contentType body : string) : M Response :=
  fetch "POST" url.

(** Verify that a SealedSecret can be decrypted by the controller. *)
Definition verifySealedSecret (config : PluginConfig) (sealedSecretYaml : string)
  : M (Result bool string) :=
  let url := getControllerProxyURL config "/v1/verify" in
  result ← tryCatchAsync (
    response ← fetch_post url "application/json" sealedSecretYaml;
    mret (ok response));
  match result with
  | Err e => mret (Err ("Verification failed: " +:+ message e))
  | Ok v => mret (Ok v)
  end.

(** Rotate (re-encrypt) a SealedSecret with the current active key. *)
Definition rotateSealedSecret (config : PluginConfig) (sealedSecretYaml : string)
  : M (Result string string) :=
  let url := getControllerProxyURL config "/v1/rotate" in
  result ← tryCatchAsync (
    response ← fetch_post url "application/json" sealedSecretYaml;
    if negb (ok response) then
      throw (Error (template [PStr "Rotation failed: "; PNum (status response);
                              PStr " "; PStr (statusText response)]))
    else
      mret (text response));
  match result with
  | Err e => mret (Err ("Unable to rotate SealedSecret: " +:+ message e))
  | Ok v => mret (Ok v)
  end.

Definition verify_request (config : PluginConfig) : Request :=
  mkRequest "POST" (getControllerProxyURL config "/v1/verify") None.

Definition rotate_request (config : PluginConfig) : Request :=
  mkRequest "POST" (getControllerProxyURL config "/v1/rotate") None.


Section WithStorage.
(** What the platform's storage does with a write of [value] under [key],
    given what it holds: [None] when it stores the value, [Some e] when
    [setItem] throws [e] instead (a QuotaExceededError when the quota is
    exceeded, a SecurityError when the storage may not be used), in which
    case nothing is stored. *)
Variable setItem_refusal : string -> string -> gmap string string -> option JsError.

(** [localStorage.setItem(key, value)] *)
Definition localStorage_setItem (key value : string) : M unit :=
  fun _ s =>
    match setItem_refusal key value (localStorage s) with
    | None => (Returned tt, set_localStorage (<[key := value]> (localStorage s)) s)
    | Some e => (Threw e, s)
    end.

(** The platform's [JSON.stringify]. *)
Variable JSON_stringify : Json -> string.

(** Save plugin configuration to localStorage. *)
Definition savePluginConfig (config : PluginConfig) : M unit :=
  localStorage_setItem CONFIG_KEY (JSON_stringify (config_object config)).
End WithStorage.

(** Whether a character occurs in a string. *)
Fixpoint occurs (c : ascii) (s : string) : bool :=
  match s with
  | EmptyString => false
  | String x r => Ascii.eqb x c || occurs c r
  end.

End ControllerOps.

(** ** [src/lib/SealedSecretCRD.ts]: status getters and the API endpoint *)
Module Resource.
Import Js Http Runtime Result SealedSecretCRD.

(** One entry of [status.conditions]. *)
Record Condition := mkCondition {
  ctype : string;
  cstatus : string;
  creason : option string;
  cmessage : option string
}.

(** [status] of the resource; [conditions] may be missing. *)
Record SealedSecretStatus := mkStatus {
  conditions : option (list Condition)
}.

(** The resource with the part of [jsonData] the status getters read. *)
Record SealedSecretObject := mkObject {
  resource : SealedSecret;
  status : option SealedSecretStatus
}.

(** Get the count of encrypted keys. *)
Definition encryptedKeysCount (this : SealedSecret) : nat :=
  size (default ∅ (encryptedData this)).

(** Get the sync status condition:
    [this.status?.conditions?.find(c => c.type === 'Synced')]. *)
Definition syncCondition (this : SealedSecretObject) : option Condition :=
  match status this with
  | Some st =>
      match conditions st with
      | Some cs => List.find (fun c => String.eqb (ctype c) "Synced") cs
      | None => None
      end
  | None => None
  end.

(** Check if the SealedSecret is synced. *)
Definition isSynced (this : SealedSecretObject) : bool :=
  match syncCondition this with
  | Some c => String.eqb (cstatus c) "True"
  | None => false
  end.

(** [a || b] where [a] is a [string | undefined]. *)
Definition or_else (a : option string) (b : string) : string :=
  match or_undefined a with
  | Some s => s
  | None => b
  end.

(** Get the sync status message. *)
Definition syncMessage (this : SealedSecretObject) : string :=
  match syncCondition this with
  | None => "Unknown"
  | Some condition =>
      or_else (cmessage condition) (or_else (creason condition) (cstatus condition))
  end.

(** [s.split(sep)] for a one-character separator: the piece before the first
    separator, and the pieces after it.  The result of [split] is never
    empty; the empty string splits into one empty piece. *)
Fixpoint split (sep : ascii) (s : string) : string * list string :=
  match s with
  | EmptyString => (EmptyString, [])
  | String x r =>
      let '(first, others) := split sep r in
      if Ascii.eqb x sep then (EmptyString, first :: others)
      else (String x first, others)
  end.

(** Whether an answer to the definition query declares the version [v]:
    its status is 2xx and its body is a definition that lists, with the
    [storage] or the [served] flag, a version which in the definition's
    group is written [v]. *)
Definition declares (r : Response) (v : string) : bool :=
  ok r &&
  match json r with
  | inr crd =>
      match spec crd with
      | Some sp =>
          existsb (fun ver => (storage ver || served ver)
                              && String.eqb v (group sp +:+ "/" +:+ vname ver))
            (declared_versions crd)
      | None => false
      end
  | inl _ => false
  end.

(** What [apiFactoryWithNamespace(group, version, resource)] of the Headlamp
    library is given; the second element of a destructured array may be
    undefined. *)
Record ApiEndpoint := mkEndpoint {
  api_group : string;
  api_version : option string;
  api_resource : string
}.

Definition apiFactoryWithNamespace (group : string) (version : option string)
    (resource : string) : ApiEndpoint :=
  {| api_group := group; api_version := version; api_resource := resource |}.

(** The static [apiEndpoint] of the class. *)
Definition apiEndpoint : ApiEndpoint :=
  apiFactoryWithNamespace "bitnami.com" (Some "v1alpha1") "sealedsecrets".

(** Get API endpoint with auto-detected version. *)
Definition getApiEndpoint : M ApiEndpoint :=
  versionResult ← detectApiVersion;
  match versionResult with
  | Ok value =>
      let '(group, others) := split "/" value in
      let version := head others in
      mret (apiFactoryWithNamespace group version "sealedsecrets")
  | Err _ => mret apiEndpoint
  end.

End Resource.

(** ** [src/components]: the version warning and the controller status chip *)
Module Components.
Import Js Http Runtime Result Controller SealedSecretCRD.

(** [haystack.includes(needle)] *)
Fixpoint includes (needle haystack : string) : bool :=
  String.prefix needle haystack ||
  match haystack with
  | EmptyString => false
  | String _ rest => includes needle rest
  end.

Record VersionWarningProps := mkVWProps {
  autoDetect : bool;
  showDetails : bool
}.

(** The three [useState] cells of [VersionWarning]. *)
Record VersionWarningState := mkVWState {
  loading : bool;
  detectedVersion : option string;
  error : option string
}.

(** The state the component is created with. *)
Definition VersionWarning_initial : VersionWarningState :=
  {| loading := true; detectedVersion := None; error := None |}.

(** The [detectVersion] callback, started in component state [st]; its
    value is the component state once the callback has run to its end. *)
Definition detectVersion (st : VersionWarningState) : M VersionWarningState :=
  let st := {| loading := true; detectedVersion := detectedVersion st; error := None |} in
  st ← try_catch (
         result ← detectApiVersion;
         match result with
         | Ok value =>
             mret {| loading := loading st; detectedVersion := Some value; error := None |}
         | Err e =>
             mret {| loading := loading st; detectedVersion := None; error := Some e |}
         end)
       (fun e =>
          mret {| loading := loading st; detectedVersion := None;
                  error := Some (message e) |});
  mret {| loading := false; detectedVersion := detectedVersion st; error := error st |}.

(** The effect run when the component is mounted. *)
Definition VersionWarning_mount (props : VersionWarningProps) : M VersionWarningState :=
  if autoDetect props then detectVersion VersionWarning_initial
  else mret VersionWarning_initial.

(** What [VersionWarning] renders. *)
Inductive Banner :=
| NoBanner
| ErrorBanner (text : string) (installInstructions : bool)
| InfoBanner (version : string) (withDefault : bool)
| SuccessBanner (version : string).

Definition VersionWarning_render (props : VersionWarningProps)
    (st : VersionWarningState) : Banner :=
  if loading st then NoBanner
  else
    match or_undefined (error st) with
    | Some e => ErrorBanner e (includes "not found" e)
    | None =>
        match or_undefined (detectedVersion st) with
        | Some v =>
            if negb (String.eqb v DEFAULT_VERSION) then InfoBanner v (showDetails props)
            else if showDetails props then SuccessBanner v
            else NoBanner
        | None => NoBanner
        end
    end.

(** What [ControllerStatus] renders: the progress line, or the chip with its
    colour, label and tooltip. *)
Inductive StatusView :=
| Checking
| Chip (color label tooltip : string).

Definition ControllerStatus_render (loading : bool)
    (status : option ControllerHealthStatus) : StatusView :=
  match status with
  | Some status =>
      if loading then Checking
      else if healthy status then
        Chip "success" "Healthy"
          (template [PStr "Controller is healthy";
                     PStr (match or_undefined (version status) with
                           | Some v => template [PStr " ("; PStr v; PStr ")"]
                           | None => ""
                           end)])
      else if reachable status then
        Chip "warning" "Unhealthy"
          (Resource.or_else (Controller.error status) "Controller responded but is not healthy")
      else
        Chip "error" "Unreachable"
          (Resource.or_else (Controller.error status) "Controller is unreachable")
  | None => Checking
  end.

End Components.

(** ** Further concrete values *)
Module MoreSamples.
Import Js Http Runtime Result Controller ControllerOps SealedSecretCRD Samples.

(** A stand-in for [JSON.stringify] that knows how the stored configuration
    of the samples is written, and writes null for everything else. *)
Definition sample_JSON_stringify (j : Json) : string :=
  match j with
  | JObj (("controllerName", JStr "sealer") :: _) => stored_config_text
  | _ => "null"
  end.

(** A storage with room for every write, and one that is full. *)
Definition roomy_storage (key value : string) (held : gmap string string)
  : option JsError := None.


(** A platform on which Sealed Secrets is installed between two queries:
    the first query gets a 404, every later one the definition. *)
Definition installed_later : Env :=
  {| network := fun n =>
       match n with
       | O => Resolves 9 not_found_response
       | _ => Resolves 5 (definition_response crd_migrating)
       end;
     clock := fun n => 1000 + 7 * Z.of_nat n;
     noise := fun _ => 0;
     abort_message := "The operation was aborted." |}.

Definition synced_condition : Resource.Condition :=
  Resource.mkCondition "Synced" "True" None (Some "").

Definition failed_condition : Resource.Condition :=
  Resource.mkCondition "Synced" "False" (Some "DecryptionFailed")
    (Some "no key could decrypt secret").

Definition other_condition : Resource.Condition :=
  Resource.mkCondition "Ready" "True" None None.

Definition object_with (cs : option (list Resource.Condition)) : Resource.SealedSecretObject :=
  {| Resource.resource := no_annotations;
     Resource.status := Some {| Resource.conditions := cs |} |}.

End MoreSamples.

(* ===================================================================== *)
(** * Part II: properties                                                  *)
(* ===================================================================== *)

Import Js Http Runtime Result.

(** ** Strings *)

Lemma append_cons (x : ascii) (a b : string) :
  String x a +:+ b = String x (a +:+ b).
Proof. reflexivity. Qed.

Lemma append_assoc (a b c : string) : (a +:+ b) +:+ c = a +:+ (b +:+ c).
Proof.
  induction a as [|x a IH]; [reflexivity|].
  rewrite !append_cons. f_equal. exact IH.
Qed.

Lemma append_empty_r (a : string) : a +:+ "" = a.
Proof.
  induction a as [|x a IH]; [reflexivity|].
  rewrite append_cons. f_equal. exact IH.
Qed.

(** A template literal is the concatenation of its converted pieces. *)
Lemma template_cons (p : Prim) (ps : list Prim) :
  template (p :: ps) = ToString p +:+ template ps.
Proof.
  unfold template. destruct ps as [|q qs].
  - cbn [fmap list_fmap String.concat]. now rewrite append_empty_r.
  - reflexivity.
Qed.

Lemma template_nil : template [] = "".
Proof. reflexivity. Qed.

Create Rewrite HintDb template.
#[local] Hint Rewrite template_cons template_nil append_empty_r : template.

(** ** The proxy URL *)
Section ProxyURL.
Import Controller.

Example proxy_url_default :
  getControllerProxyURL default_config "/v1/cert.pem"
  = "/api/v1/namespaces/kube-system/services/http:sealed-secrets-controller:8080/proxy/v1/cert.pem".
Proof. reflexivity. Qed.

(** C2.  [getControllerProxyURL] is a pure function of the configuration and
    the path (it does not live in the monad of effects), and its value is
    exactly the string
    "/api/v1/namespaces/" + controllerNamespace + "/services/http:" +
    controllerName + ":" + controllerPort + "/proxy" + path,
    both as the chain of JavaScript [+] operations read from left to right
    and as a plain concatenation with the port printed in decimal. *)
Theorem getControllerProxyURL_convention (config : PluginConfig) (path : string) :
  PStr (getControllerProxyURL config path) = proxy_path_by_concatenation config path
  /\ getControllerProxyURL config path
     = "/api/v1/namespaces/" +:+ controllerNamespace config +:+ "/services/http:"
       +:+ controllerName config +:+ ":" +:+ Number_toString (controllerPort config)
       +:+ "/proxy" +:+ path.
Proof.
  assert (E : getControllerProxyURL config path
     = "/api/v1/namespaces/" +:+ controllerNamespace config +:+ "/services/http:"
       +:+ controllerName config +:+ ":" +:+ Number_toString (controllerPort config)
       +:+ "/proxy" +:+ path).
  { unfold getControllerProxyURL. autorewrite with template. reflexivity. }
  split; [|exact E].
  rewrite E. unfold proxy_path_by_concatenation. cbn [plus ToString].
  f_equal. now rewrite !append_assoc.
Qed.

End ProxyURL.

(** ** The scope getter *)
Section Scope.
Import SealedSecretCRD.

Lemma scope_unfold (this : SealedSecret) :
  scope this =
    if bool_decide (annotation this CLUSTER_WIDE_ANNOTATION = Some "true") then cluster_wide
    else if bool_decide (annotation this NAMESPACE_WIDE_ANNOTATION = Some "true")
         then namespace_wide else strict.
Proof.
  unfold scope, annotation. destruct (annotations (metadata this)); simpl.
  - reflexivity.
  - rewrite !lookup_empty. reflexivity.
Qed.

(** C10.  The scope getter is a total function and resolves the annotations
    by fixed precedence: a cluster-wide annotation equal to the string
    "true" wins, whatever the namespace-wide annotation says; otherwise a
    namespace-wide annotation equal to "true" gives namespace-wide; in all
    remaining cases (annotations missing, or any other value) the scope is
    strict. *)
Theorem scope_precedence (this : SealedSecret) :
  (annotation this CLUSTER_WIDE_ANNOTATION = Some "true" ->
     scope this = cluster_wide /\ scope_name (scope this) = "cluster-wide")
  /\ (annotation this CLUSTER_WIDE_ANNOTATION <> Some "true" ->
      annotation this NAMESPACE_WIDE_ANNOTATION = Some "true" ->
     scope this = namespace_wide /\ scope_name (scope this) = "namespace-wide")
  /\ (annotation this CLUSTER_WIDE_ANNOTATION <> Some "true" ->
      annotation this NAMESPACE_WIDE_ANNOTATION <> Some "true" ->
     scope this = strict /\ scope_name (scope this) = "strict")
  /\ (annotations (metadata this) = None -> scope this = strict).
Proof.
  rewrite scope_unfold. repeat apply conj.
  - intros H. now rewrite bool_decide_eq_true_2.
  - intros H1 H2. rewrite bool_decide_eq_false_2 by assumption.
    now rewrite bool_decide_eq_true_2.
  - intros H1 H2. now rewrite !bool_decide_eq_false_2.
  - intros H. unfold annotation. rewrite H. reflexivity.
Qed.

End Scope.

Section ScopeWitness.
Import SealedSecretCRD Samples.

Lemma scope_precedence_witness :
  scope_name (scope both_annotations) = "cluster-wide"
  /\ scope_name (scope namespace_annotation) = "namespace-wide"
  /\ scope_name (scope odd_annotations) = "strict"
  /\ scope no_annotations = strict.
Proof.
  split; [|split; [|split]].
  - apply (proj1 (scope_precedence both_annotations)). vm_compute. reflexivity.
  - apply (proj1 (proj2 (scope_precedence namespace_annotation)));
      vm_compute; [discriminate | reflexivity].
  - apply (proj1 (proj2 (proj2 (scope_precedence odd_annotations))));
      vm_compute; discriminate.
  - apply (proj2 (proj2 (proj2 (scope_precedence no_annotations)))). reflexivity.
Defined.

End ScopeWitness.

(** ** Running monadic code *)

(** Unfolds the monad and the platform primitives, leaving the source-level
    functions alone. *)
Ltac run :=
  cbv beta iota zeta delta
    [mbind mret M_bind M_ret bind ret throw try_catch tryCatchAsync
     Date_now random_offset sleep setTimeout_abort clearTimeout
     fetch fetch_with_signal response_json localStorage_getItem].

(** ** The health probe *)
Section HealthProbe.
Import Controller.

(** The request the probe sends. *)
Lemma checkControllerHealth_request config env s :
  sent (snd (checkControllerHealth config env s))
  = (sent s ++ [mkRequest "GET" (getControllerProxyURL config "/healthz")
                          (Some HEALTH_TIMEOUT_MS)])%list.
Proof.
  unfold checkControllerHealth. run. cbn [ticks sent armed set_armed tick log_request].
  destruct (network env (length (sent s))) as [after r|after msg|]; cbn.
  - destruct (after <? HEALTH_TIMEOUT_MS); cbn; [destruct (ok r)|]; reflexivity.
  - destruct (after <? HEALTH_TIMEOUT_MS); reflexivity.
  - reflexivity.
Qed.

(** C3.  Whatever the platform does with the probe (a 2xx answer, any other
    answer, a transport exception, or silence until the five-second timer
    fires), [checkControllerHealth] returns, and what it returns is the
    success variant of the Result: it neither yields [Err] nor throws nor
    stays pending. *)
Theorem checkControllerHealth_never_fails
    (config : PluginConfig) (env : Env) (s : State) :
  exists (st : ControllerHealthStatus) (s' : State),
    checkControllerHealth config env s = (Returned (Ok st), s').
Proof.
  unfold checkControllerHealth. run. cbn [ticks sent armed set_armed tick log_request].
  destruct (network env (length (sent s))) as [after r|after msg|]; cbn.
  - destruct (after <? HEALTH_TIMEOUT_MS); cbn; [destruct (ok r)|]; cbn; eauto.
  - destruct (after <? HEALTH_TIMEOUT_MS); cbn; eauto.
  - eauto.
Qed.

(** Header names are matched case-insensitively: the probe's lookup reads
    the entry stored under the lower-cased name. *)
Lemma controller_version_header (r : Response) :
  headers_get r "X-Controller-Version" = headers r !! "x-controller-version".
Proof. reflexivity. Qed.

(** C4.  The probe classifies its single request into
    three outcomes.  An answer that arrives before the 5000 ms timer with a
    2xx status gives healthy and reachable, with the latency and, when the
    response carries a non-empty X-Controller-Version header, that version.
    An answer in time with any other status gives reachable but not healthy,
    the error being "HTTP <status>: <status text>".  A transport failure in
    time gives neither reachable nor healthy, the error being the failure's
    own message or, if it has none, "Controller unreachable".  When the
    timer fires first (the network is silent or too slow) the result is
    again neither reachable nor healthy, and the error is the fixed sentence
    "Request timed out after 5 seconds", whatever the text of the abort
    exception.  That sentence is the probe's own: it differs from the
    fallback message of the transport failures, and from the message
    reported for any transport failure that is not itself worded so. *)
Theorem checkControllerHealth_classification
    (config : PluginConfig) (env : Env) (s : State) :
  let o := network env (length (sent s)) in
  let latency := clock env (S (ticks s)) - clock env (ticks s) in
  let outcome := fst (checkControllerHealth config env s) in
  (forall after r, o = Resolves after r -> after < 5000 -> ok r = true ->
     outcome = Returned (Ok {| healthy := true; reachable := true;
                               version := or_undefined (headers_get r "X-Controller-Version");
                               latencyMs := Some latency; error := None |}))
  /\ (forall after r, o = Resolves after r -> after < 5000 -> ok r = false ->
     outcome = Returned (Ok {| healthy := false; reachable := true;
                               version := None; latencyMs := Some latency;
                               error := Some ("HTTP " +:+ Number_toString (status r)
                                              +:+ ": " +:+ statusText r) |}))
  /\ (forall after msg, o = Rejects after msg -> after < 5000 ->
     outcome = Returned (Ok {| healthy := false; reachable := false;
                               version := None; latencyMs := Some latency;
                               error := Some (if truthy msg then msg
                                              else "Controller unreachable") |}))
  /\ (deadline_fires 5000 o = true ->
     outcome = Returned (Ok {| healthy := false; reachable := false;
                               version := None; latencyMs := Some latency;
                               error := Some "Request timed out after 5 seconds" |}))
  /\ "Request timed out after 5 seconds" <> "Controller unreachable"
  /\ (forall msg, msg <> "Request timed out after 5 seconds" ->
        (if truthy msg then msg else "Controller unreachable")
        <> "Request timed out after 5 seconds").
Proof.
  cbv zeta.
  unfold checkControllerHealth. run.
  cbn [ticks sent armed set_armed tick log_request fst].
  change HEALTH_TIMEOUT_MS with 5000.
  repeat split.
  - intros after r -> Hlt Hok.
    apply Z.ltb_lt in Hlt. rewrite Hlt. cbn. rewrite Hok. reflexivity.
  - intros after r -> Hlt Hok.
    apply Z.ltb_lt in Hlt. rewrite Hlt. cbn. rewrite Hok. cbn.
    autorewrite with template. reflexivity.
  - intros after msg -> Hlt.
    apply Z.ltb_lt in Hlt. rewrite Hlt. reflexivity.
  - intros Hfire.
    destruct (network env (length (sent s))) as [after r|after msg|];
      cbn [deadline_fires] in Hfire; try reflexivity.
    + apply Z.leb_le in Hfire.
      assert (E : (after <? 5000) = false) by (apply Z.ltb_ge; exact Hfire).
      rewrite E. reflexivity.
    + apply Z.leb_le in Hfire.
      assert (E : (after <? 5000) = false) by (apply Z.ltb_ge; exact Hfire).
      rewrite E. reflexivity.
  - discriminate.
  - intros msg Hmsg. destruct (truthy msg); [exact Hmsg | discriminate].
Qed.

End HealthProbe.

Section HealthProbeWitness.
Import Controller Samples.

Lemma checkControllerHealth_classification_witness :
  fst (checkControllerHealth default_config
         (constant_env (Resolves 12 healthz_200)) initial_state)
    = Returned (Ok {| healthy := true; reachable := true;
                      version := Some "0.24.0";
                      latencyMs := Some 7; error := None |})
  /\ fst (checkControllerHealth default_config
         (constant_env (Resolves 40 healthz_503)) initial_state)
    = Returned (Ok {| healthy := false; reachable := true;
                      version := None; latencyMs := Some 7;
                      error := Some "HTTP 503: Service Unavailable" |})
  /\ fst (checkControllerHealth default_config
         (constant_env (Rejects 3 "Failed to fetch")) initial_state)
    = Returned (Ok {| healthy := false; reachable := false;
                      version := None; latencyMs := Some 7;
                      error := Some "Failed to fetch" |})
  /\ fst (checkControllerHealth default_config
         (constant_env (Resolves 5000 healthz_200)) initial_state)
    = Returned (Ok {| healthy := false; reachable := false;
                      version := None; latencyMs := Some 7;
                      error := Some "Request timed out after 5 seconds" |}).
Proof.
  split; [|split; [|split]].
  - apply (proj1 (checkControllerHealth_classification default_config
                    (constant_env (Resolves 12 healthz_200)) initial_state)
             12 healthz_200); [reflexivity | lia | reflexivity].
  - apply (proj1 (proj2 (checkControllerHealth_classification default_config
                    (constant_env (Resolves 40 healthz_503)) initial_state))
             40 healthz_503); [reflexivity | lia | reflexivity].
  - apply (proj1 (proj2 (proj2 (checkControllerHealth_classification default_config
                    (constant_env (Rejects 3 "Failed to fetch")) initial_state)))
             3 "Failed to fetch"); [reflexivity | lia].
  - apply (proj1 (proj2 (proj2 (proj2 (checkControllerHealth_classification
                    default_config
                    (constant_env (Resolves 5000 healthz_200)) initial_state))))).
    reflexivity.
Defined.

End HealthProbeWitness.

(** ** The API-version resolver *)
Section Resolver.
Import SealedSecretCRD.

Lemma find_version_declared (p : CRDVersion -> bool) (crd : CRD) :
  find_version p crd = List.find p (declared_versions crd).
Proof.
  unfold find_version, declared_versions.
  destruct (spec crd) as [sp|]; [|reflexivity].
  destruct (versions sp); reflexivity.
Qed.

(** [find] returns the first element that satisfies the predicate. *)
Lemma find_first {A} (p : A -> bool) (before : list A) (v : A) (rest : list A) :
  p v = true -> Forall (fun x => p x = false) before ->
  List.find p (before ++ v :: rest)%list = Some v.
Proof.
  intros Hv Hb. induction Hb as [|x before Hx _ IH]; simpl.
  - now rewrite Hv.
  - now rewrite Hx.
Qed.

Lemma find_none_all {A} (p : A -> bool) (l : list A) :
  Forall (fun x => p x = false) l -> List.find p l = None.
Proof.
  intros H. induction H as [|x l Hx _ IH]; simpl; [reflexivity|].
  now rewrite Hx.
Qed.

(** A version string always contains the slash, so it is never falsy. *)
Lemma version_string_truthy (g n : string) : truthy (g +:+ "/" +:+ n) = true.
Proof. destruct g; reflexivity. Qed.

(** The guard at the head of [detectApiVersion]. *)
Lemma detectApiVersion_cached env s v :
  cache_state s = Resolved v ->
  detectApiVersion env s = (Returned (Ok v), s).
Proof.
  unfold cache_state, detectApiVersion, get_detectedVersion. run.
  destruct (detectedVersion s) as [w|]; [|discriminate].
  destruct (truthy w); [|discriminate].
  now intros [= ->].
Qed.

Lemma detectApiVersion_uncached env s :
  cache_state s = Unresolved ->
  detectApiVersion env s = detect_from_cluster env s.
Proof.
  unfold cache_state, detectApiVersion, get_detectedVersion. run.
  destruct (detectedVersion s) as [w|]; [|reflexivity].
  destruct (truthy w); [discriminate | reflexivity].
Qed.

(** Every run of the detection proper sends the definition query, and
    nothing else. *)
Lemma detect_from_cluster_request env s :
  sent (snd (detect_from_cluster env s)) = (sent s ++ [definition_request])%list.
Proof.
  unfold detect_from_cluster, query_definition, version_string, put_detectedVersion.
  run. fold definition_request.
  destruct (network env (length (sent s))) as [after r|after msg|]; try reflexivity.
  destruct (ok r); cbn [negb].
  2:{ destruct (status r =? 404); reflexivity. }
  destruct (json r) as [e|crd]; [reflexivity|].
  destruct (find_version storage crd).
  { destruct (spec crd); reflexivity. }
  destruct (find_version served crd); [|reflexivity].
  destruct (spec crd); reflexivity.
Qed.

(** What the detection proper does with a well-formed answer. *)
Lemma detect_from_cluster_answer env s after r crd :
  network env (length (sent s)) = Resolves after r ->
  ok r = true -> json r = inr crd ->
  detect_from_cluster env s =
    let s1 := log_request definition_request s in
    match List.find storage (declared_versions crd), spec crd with
    | Some v, Some sp =>
        (Returned (Ok (group sp +:+ "/" +:+ vname v)),
         set_detectedVersion (Some (group sp +:+ "/" +:+ vname v)) s1)
    | Some _, None => (Returned (Err "Cannot read properties of undefined (reading 'group')"), s1)
    | None, _ =>
        match List.find served (declared_versions crd), spec crd with
        | Some v, Some sp =>
            (Returned (Ok (group sp +:+ "/" +:+ vname v)),
             set_detectedVersion (Some (group sp +:+ "/" +:+ vname v)) s1)
        | Some _, None =>
            (Returned (Err "Cannot read properties of undefined (reading 'group')"), s1)
        | None, _ => (Returned (Ok DEFAULT_VERSION), s1)
        end
    end.
Proof.
  intros Hnet Hok Hjson.
  rewrite <- !find_version_declared.
  unfold detect_from_cluster, query_definition, version_string, put_detectedVersion.
  run. fold definition_request.
  rewrite Hnet, Hok. cbn [negb]. rewrite Hjson.
  destruct (find_version storage crd) as [v|].
  { destruct (spec crd) as [sp|]; [|reflexivity].
    autorewrite with template. reflexivity. }
  destruct (find_version served crd) as [v|]; [|destruct (spec crd); reflexivity].
  destruct (spec crd) as [sp|]; [|reflexivity].
  autorewrite with template. reflexivity.
Qed.

(** C5, as the code has it.  With the cache unresolved, [detectApiVersion]
    sends the definition query; on a well-formed answer it picks, among the
    declared versions, the first one whose [storage] flag is true; if no
    version has it, the first one whose [served] flag is true; and if there
    is neither, the default "bitnami.com/v1alpha1".  A version picked from
    the definition is written to the cache before it is returned; the
    default is returned with the cache left as it was. *)
Theorem detectApiVersion_selection
    (env : Env) (s : State) (after : Z) (r : Response) (crd : CRD) :
  cache_state s = Unresolved ->
  network env (length (sent s)) = Resolves after r ->
  ok r = true -> json r = inr crd ->
  let s1 := log_request definition_request s in
  (forall sp before v rest,
      spec crd = Some sp ->
      declared_versions crd = (before ++ v :: rest)%list ->
      storage v = true -> Forall (fun x => storage x = false) before ->
      detectApiVersion env s
      = (Returned (Ok (group sp +:+ "/" +:+ vname v)),
         set_detectedVersion (Some (group sp +:+ "/" +:+ vname v)) s1))
  /\ (forall sp before v rest,
      spec crd = Some sp ->
      Forall (fun x => storage x = false) (declared_versions crd) ->
      declared_versions crd = (before ++ v :: rest)%list ->
      served v = true -> Forall (fun x => served x = false) before ->
      detectApiVersion env s
      = (Returned (Ok (group sp +:+ "/" +:+ vname v)),
         set_detectedVersion (Some (group sp +:+ "/" +:+ vname v)) s1))
  /\ (Forall (fun x => storage x = false /\ served x = false) (declared_versions crd) ->
      detectApiVersion env s = (Returned (Ok "bitnami.com/v1alpha1"), s1)
      /\ detectedVersion s1 = detectedVersion s).
Proof.
  intros Hcache Hnet Hok Hjson s1.
  rewrite (detectApiVersion_uncached env s Hcache).
  rewrite (detect_from_cluster_answer env s after r crd Hnet Hok Hjson).
  cbv zeta. fold s1.
  split; [|split].
  - intros sp before v rest Hsp Hdecl Hv Hbefore.
    rewrite Hdecl, (find_first storage before v rest Hv Hbefore), Hsp.
    reflexivity.
  - intros sp before v rest Hsp Hnone Hdecl Hv Hbefore.
    rewrite (find_none_all storage _ Hnone).
    rewrite Hdecl, (find_first served before v rest Hv Hbefore), Hsp.
    reflexivity.
  - intros Hnone.
    assert (Hst : Forall (fun x => storage x = false) (declared_versions crd)).
    { eapply Forall_impl; [exact Hnone|]. now intros x [H _]. }
    assert (Hse : Forall (fun x => served x = false) (declared_versions crd)).
    { eapply Forall_impl; [exact Hnone|]. now intros x [_ H]. }
    rewrite (find_none_all storage _ Hst), (find_none_all served _ Hse).
    split; reflexivity.
Qed.

(** C5 as stated fails in the default case: the definition below declares
    no version, the call succeeds with the default version, and the cache
    is still empty afterwards. *)
Lemma detectApiVersion_default_not_cached :
  let env := Samples.constant_env
               (Resolves 5 (Samples.definition_response Samples.crd_no_versions)) in
  cache_state initial_state = Unresolved
  /\ fst (detectApiVersion env initial_state) = Returned (Ok "bitnami.com/v1alpha1")
  /\ detectedVersion (snd (detectApiVersion env initial_state)) = None
  /\ detectedVersion (snd (detectApiVersion env initial_state))
      <> Some "bitnami.com/v1alpha1".
Proof. cbv zeta. repeat split. discriminate. Qed.

(** The cached value is never the empty string: in every reachable state the
    field is either null or a non-empty version. *)
Lemma detect_from_cluster_cache env s :
  detectedVersion (snd (detect_from_cluster env s)) = detectedVersion s
  \/ exists v, fst (detect_from_cluster env s) = Returned (Ok v)
             /\ truthy v = true
             /\ detectedVersion (snd (detect_from_cluster env s)) = Some v.
Proof.
  unfold detect_from_cluster, query_definition, version_string, put_detectedVersion.
  run.
  destruct (network env (length (sent s))) as [after r|after msg|];
    try (left; reflexivity).
  destruct (ok r); cbn [negb].
  2:{ destruct (status r =? 404); left; reflexivity. }
  destruct (json r) as [e|crd]; [left; reflexivity|].
  destruct (find_version storage crd) as [v|].
  { destruct (spec crd) as [sp|]; [|left; reflexivity].
    right. eexists. cbn [fst snd]. repeat split.
    autorewrite with template. apply version_string_truthy. }
  destruct (find_version served crd) as [v|]; [|left; reflexivity].
  destruct (spec crd) as [sp|]; [|left; reflexivity].
  right. eexists. cbn [fst snd]. repeat split.
  autorewrite with template. apply version_string_truthy.
Qed.

Lemma cache_never_empty env s :
  Reachable env s -> detectedVersion s <> Some "".
Proof.
  induction 1 as [s Hs|s s' _ IH Hstep].
  - rewrite Hs. discriminate.
  - destruct Hstep as [s c s' Hrun|s c s' Hrun|s s' Hsame].
    + destruct (cache_state s) as [|v] eqn:Hc.
      * rewrite (detectApiVersion_uncached env s Hc) in Hrun.
        destruct (detect_from_cluster_cache env s) as [Hkeep|[v [_ [Hv Hnew]]]];
          rewrite Hrun in *; cbn [snd] in *.
        -- now rewrite Hkeep.
        -- rewrite Hnew. intros [= ->]. discriminate.
      * rewrite (detectApiVersion_cached env s v Hc) in Hrun.
        now injection Hrun as _ <-.
    + injection Hrun as _ <-. discriminate.
    + now rewrite Hsame.
Qed.

(** C6.  The cache is a two-state machine.  In the state [Resolved v] a call
    of [detectApiVersion] returns [v] and leaves the whole runtime state,
    the log of requests included, untouched: no network call is made.
    [clearVersionCache] leads to [Unresolved] from any state without
    touching the network, and the call of [detectApiVersion] that follows
    sends the definition query again.  A detection started in [Unresolved]
    either stays there or moves to [Resolved v] for the very [v] it
    returns. *)
Theorem version_cache_state_machine (env : Env) (s : State) :
  (forall v, cache_state s = Resolved v ->
     detectApiVersion env s = (Returned (Ok v), s))
  /\ (let s1 := snd (clearVersionCache env s) in
      cache_state s1 = Unresolved
      /\ sent s1 = sent s
      /\ sent (snd (detectApiVersion env s1)) = (sent s ++ [definition_request])%list)
  /\ (cache_state s = Unresolved ->
      sent (snd (detectApiVersion env s)) = (sent s ++ [definition_request])%list
      /\ (cache_state (snd (detectApiVersion env s)) = Unresolved
          \/ exists v, fst (detectApiVersion env s) = Returned (Ok v)
                     /\ cache_state (snd (detectApiVersion env s)) = Resolved v)).
Proof.
  split; [|split].
  - intros v Hv. now apply detectApiVersion_cached.
  - cbv zeta.
    assert (Hc : cache_state (snd (clearVersionCache env s)) = Unresolved)
      by reflexivity.
    repeat split.
    rewrite (detectApiVersion_uncached env _ Hc).
    now rewrite detect_from_cluster_request.
  - intros Hc. rewrite (detectApiVersion_uncached env s Hc).
    split; [apply detect_from_cluster_request|].
    destruct (detect_from_cluster_cache env s) as [Hkeep|[v [Hret [Hv Hnew]]]].
    + left. unfold cache_state in *. now rewrite Hkeep.
    + right. exists v. split; [exact Hret|].
      unfold cache_state. now rewrite Hnew, Hv.
Qed.

(** The spec's scenario: the first call queries the cluster and finds
    "bitnami.com/v1alpha1", the second call is answered from the cache, and
    after a clear the third call queries again. *)
Example resolver_scenario :
  let env := Samples.constant_env
               (Resolves 5 (Samples.definition_response Samples.crd_v1alpha1)) in
  let '(r1, s1) := detectApiVersion env initial_state in
  let '(r2, s2) := detectApiVersion env s1 in
  let '(_, s3) := clearVersionCache env s2 in
  let '(r4, s4) := detectApiVersion env s3 in
  r1 = Returned (Ok "bitnami.com/v1alpha1")
  /\ r2 = Returned (Ok "bitnami.com/v1alpha1")
  /\ r4 = Returned (Ok "bitnami.com/v1alpha1")
  /\ sent s1 = [definition_request]
  /\ sent s2 = [definition_request]
  /\ sent s4 = [definition_request; definition_request].
Proof. vm_compute. repeat split. Qed.

Lemma append_literal_head (c : ascii) (a b : string) :
  exists t, String c a +:+ b = String c t.
Proof. exists (a +:+ b). reflexivity. Qed.

(** C7.  A 404 answer to the definition query makes [detectApiVersion]
    fail with the dedicated message that tells the user to install Sealed
    Secrets; an answer with any other status outside 200-299 makes it fail
    with the generic message "Failed to fetch CRD: <status> <status text>",
    and no such generic message equals the dedicated one, so among the
    answers the dedicated message identifies the 404 exactly.  A transport
    failure, and an answer whose body cannot be parsed, make it fail with
    the message of their own exception, which is not the dedicated message
    either unless the exception is itself worded so.  In all these cases
    the cache is left alone. *)
Theorem detectApiVersion_not_found (env : Env) (s : State) :
  cache_state s = Unresolved ->
  let s1 := log_request definition_request s in
  (forall after r,
      network env (length (sent s)) = Resolves after r -> status r = 404 ->
      detectApiVersion env s
      = (Returned (Err "SealedSecrets CRD not found. Please install Sealed Secrets on the cluster."),
         s1))
  /\ (forall after r,
      network env (length (sent s)) = Resolves after r ->
      ok r = false -> status r <> 404 ->
      detectApiVersion env s
      = (Returned (Err ("Failed to fetch CRD: " +:+ Number_toString (status r)
                        +:+ " " +:+ statusText r)), s1)
      /\ "Failed to fetch CRD: " +:+ Number_toString (status r) +:+ " " +:+ statusText r
         <> "SealedSecrets CRD not found. Please install Sealed Secrets on the cluster.")
  /\ (forall after r,
      network env (length (sent s)) = Resolves after r -> ok r = false ->
      (fst (detectApiVersion env s) = Returned (Err CRD_NOT_FOUND_MESSAGE)
       <-> status r = 404))
  /\ (forall after msg,
      network env (length (sent s)) = Rejects after msg ->
      detectApiVersion env s = (Returned (Err msg), s1))
  /\ (forall after r e,
      network env (length (sent s)) = Resolves after r ->
      ok r = true -> json r = inl e ->
      detectApiVersion env s = (Returned (Err (message e)), s1))
  /\ (forall after msg,
      network env (length (sent s)) = Rejects after msg ->
      msg <> CRD_NOT_FOUND_MESSAGE ->
      fst (detectApiVersion env s) <> Returned (Err CRD_NOT_FOUND_MESSAGE))
  /\ (forall after r e,
      network env (length (sent s)) = Resolves after r ->
      ok r = true -> json r = inl e ->
      message e <> CRD_NOT_FOUND_MESSAGE ->
      fst (detectApiVersion env s) <> Returned (Err CRD_NOT_FOUND_MESSAGE)).
Proof.
  intros Hcache s1.
  rewrite (detectApiVersion_uncached env s Hcache).
  assert (Hgeneric : forall x,
    "Failed to fetch CRD: " +:+ x
    <> "SealedSecrets CRD not found. Please install Sealed Secrets on the cluster.").
  { intros x. destruct (append_literal_head "F" "ailed to fetch CRD: " x) as [t ->].
    discriminate. }
  assert (Hrun : forall after r,
    network env (length (sent s)) = Resolves after r -> ok r = false ->
    detect_from_cluster env s =
    if status r =? 404 then (Returned (Err CRD_NOT_FOUND_MESSAGE), s1)
    else (Returned (Err ("Failed to fetch CRD: " +:+ Number_toString (status r)
                         +:+ " " +:+ statusText r)), s1)).
  { intros after r Hnet Hok.
    unfold detect_from_cluster, query_definition. run. fold definition_request.
    rewrite Hnet, Hok. cbn [negb].
    destruct (status r =? 404); [reflexivity|].
    autorewrite with template. reflexivity. }
  repeat apply conj.
  - intros after r Hnet H404.
    assert (Hok : ok r = false) by (unfold ok; rewrite H404; reflexivity).
    rewrite (Hrun after r Hnet Hok), H404. reflexivity.
  - intros after r Hnet Hok Hne. rewrite (Hrun after r Hnet Hok).
    apply Z.eqb_neq in Hne. rewrite Hne. split; [reflexivity|apply Hgeneric].
  - intros after r Hnet Hok. rewrite (Hrun after r Hnet Hok).
    destruct (status r =? 404) eqn:E.
    + apply Z.eqb_eq in E. split; [intros _; exact E | reflexivity].
    + apply Z.eqb_neq in E. cbn [fst]. split; [|contradiction].
      intros H. exfalso.
      apply (Hgeneric (Number_toString (status r) +:+ " " +:+ statusText r)).
      unfold CRD_NOT_FOUND_MESSAGE in H. congruence.
  - intros after msg Hnet.
    unfold detect_from_cluster, query_definition. run. fold definition_request.
    rewrite Hnet. reflexivity.
  - intros after r e Hnet Hok Hjson.
    unfold detect_from_cluster, query_definition. run. fold definition_request.
    rewrite Hnet, Hok. cbn [negb]. rewrite Hjson. reflexivity.
  - intros after msg Hnet Hne.
    unfold detect_from_cluster, query_definition. run. fold definition_request.
    rewrite Hnet. cbn [fst message TypeError]. intros [= H]. now apply Hne.
  - intros after r e Hnet Hok Hjson Hne.
    unfold detect_from_cluster, query_definition. run. fold definition_request.
    rewrite Hnet, Hok. cbn [negb]. rewrite Hjson. cbn [fst]. intros [= H]. now apply Hne.
Qed.

End Resolver.

Section ResolverWitnesses.
Import SealedSecretCRD Samples.

Lemma detectApiVersion_selection_witness :
  fst (detectApiVersion
         (constant_env (Resolves 5 (definition_response crd_migrating)))
         initial_state) = Returned (Ok "bitnami.com/v1beta1")
  /\ fst (detectApiVersion
         (constant_env (Resolves 5 (definition_response crd_served_only)))
         initial_state) = Returned (Ok "bitnami.com/v1beta1")
  /\ detectApiVersion
         (constant_env (Resolves 5 (definition_response crd_no_versions)))
         initial_state
     = (Returned (Ok "bitnami.com/v1alpha1"),
        log_request definition_request initial_state).
Proof.
  split; [|split].
  - rewrite (proj1 (detectApiVersion_selection
               (constant_env (Resolves 5 (definition_response crd_migrating)))
               initial_state 5 (definition_response crd_migrating) crd_migrating
               eq_refl eq_refl eq_refl eq_refl)
             {| group := "bitnami.com";
                versions := Some [mkVersion "v1alpha1" true false;
                                  mkVersion "v1beta1" true true;
                                  mkVersion "v1" false true] |}
             [mkVersion "v1alpha1" true false]
             (mkVersion "v1beta1" true true)
             [mkVersion "v1" false true]
             eq_refl eq_refl eq_refl
             ltac:(repeat constructor)).
    reflexivity.
  - rewrite (proj1 (proj2 (detectApiVersion_selection
               (constant_env (Resolves 5 (definition_response crd_served_only)))
               initial_state 5 (definition_response crd_served_only) crd_served_only
               eq_refl eq_refl eq_refl eq_refl))
             {| group := "bitnami.com";
                versions := Some [mkVersion "v1alpha1" false false;
                                  mkVersion "v1beta1" true false] |}
             [mkVersion "v1alpha1" false false]
             (mkVersion "v1beta1" true false)
             []
             eq_refl
             ltac:(repeat constructor)
             eq_refl eq_refl
             ltac:(repeat constructor)).
    reflexivity.
  - apply (proj2 (proj2 (detectApiVersion_selection
               (constant_env (Resolves 5 (definition_response crd_no_versions)))
               initial_state 5 (definition_response crd_no_versions) crd_no_versions
               eq_refl eq_refl eq_refl eq_refl))).
    constructor.
Defined.

Lemma version_cache_state_machine_witness :
  let env := constant_env (Resolves 5 (definition_response crd_v1alpha1)) in
  let warm := set_detectedVersion (Some "bitnami.com/v1alpha1")
                (log_request definition_request initial_state) in
  detectApiVersion env warm = (Returned (Ok "bitnami.com/v1alpha1"), warm)
  /\ sent (snd (detectApiVersion env initial_state)) = [definition_request]
  /\ cache_state (snd (detectApiVersion env initial_state))
     = Resolved "bitnami.com/v1alpha1".
Proof.
  cbv zeta. split; [|split].
  - apply (proj1 (version_cache_state_machine
                    (constant_env (Resolves 5 (definition_response crd_v1alpha1)))
                    (set_detectedVersion (Some "bitnami.com/v1alpha1")
                       (log_request definition_request initial_state)))).
    reflexivity.
  - apply (proj1 (proj2 (proj2 (version_cache_state_machine
                    (constant_env (Resolves 5 (definition_response crd_v1alpha1)))
                    initial_state)) eq_refl)).
  - reflexivity.
Defined.

Lemma detectApiVersion_not_found_witness :
  fst (detectApiVersion (constant_env (Resolves 9 not_found_response)) initial_state)
    = Returned (Err "SealedSecrets CRD not found. Please install Sealed Secrets on the cluster.")
  /\ fst (detectApiVersion (constant_env (Resolves 9 forbidden_response)) initial_state)
    = Returned (Err "Failed to fetch CRD: 403 Forbidden")
  /\ fst (detectApiVersion (constant_env (Rejects 9 "Failed to fetch")) initial_state)
    = Returned (Err "Failed to fetch").
Proof.
  split; [|split].
  - rewrite (proj1 (detectApiVersion_not_found
               (constant_env (Resolves 9 not_found_response)) initial_state
               eq_refl) 9 not_found_response eq_refl eq_refl).
    reflexivity.
  - rewrite (proj1 (proj1 (proj2 (detectApiVersion_not_found
               (constant_env (Resolves 9 forbidden_response)) initial_state
               eq_refl)) 9 forbidden_response eq_refl eq_refl
               ltac:(discriminate))).
    reflexivity.
  - rewrite (proj1 (proj2 (proj2 (proj2 (detectApiVersion_not_found
               (constant_env (Rejects 9 "Failed to fetch")) initial_state
               eq_refl)))) 9 "Failed to fetch" eq_refl).
    reflexivity.
Defined.

End ResolverWitnesses.

(** ** The certificate fetch *)
Section CertificateFetch.
Import Controller.

(** The delay slept between two attempts is within the configured bounds. *)
Lemma jittered_bounds (delay cap offset : Z) :
  0 <= cap -> 0 <= jittered delay cap offset <= cap.
Proof. unfold jittered. lia. Qed.

(** One attempt: a 2xx answer gives its body, a failure gives [Err], and a
    silent network leaves the attempt pending. *)
Lemma fetchPublicCertificateOnce_run config env s :
  fetchPublicCertificateOnce config env s =
    (match network env (length (sent s)) with
     | Resolves _ r =>
         if ok r then Returned (Ok (text r))
         else Returned (Err ("Unable to fetch controller certificate: "
                             +:+ "Failed to fetch certificate: "
                             +:+ Number_toString (status r) +:+ " " +:+ statusText r))
     | Rejects _ msg =>
         Returned (Err ("Unable to fetch controller certificate: " +:+ msg))
     | Hangs => Pending
     end, log_request (certificate_request config) s).
Proof.
  unfold fetchPublicCertificateOnce. run. fold (certificate_request config).
  destruct (network env (length (sent s))) as [after r|after msg|]; try reflexivity.
  destruct (ok r); cbn [negb]; [reflexivity|].
  autorewrite with template. reflexivity.
Qed.

Lemma fetchPublicCertificateOnce_success config env s after r :
  network env (length (sent s)) = Resolves after r -> ok r = true ->
  fetchPublicCertificateOnce config env s
  = (Returned (Ok (text r)), log_request (certificate_request config) s).
Proof.
  intros Hnet Hok. now rewrite fetchPublicCertificateOnce_run, Hnet, Hok.
Qed.

Lemma fetchPublicCertificateOnce_failure config env s msg :
  attempt_failure (network env (length (sent s))) = Some msg ->
  fetchPublicCertificateOnce config env s
  = (Returned (Err ("Unable to fetch controller certificate: " +:+ msg)),
     log_request (certificate_request config) s).
Proof.
  intros Hfail. rewrite fetchPublicCertificateOnce_run.
  destruct (network env (length (sent s))) as [after r|after m|];
    cbn [attempt_failure] in Hfail.
  - destruct (ok r); [discriminate|]. now injection Hfail as <-.
  - now injection Hfail as <-.
  - discriminate.
Qed.

(** One round of the driver after a failed attempt. *)
Lemma retry_loop_failure {T E} (op : M (Result T E)) k delay cap env s e s' :
  op env s = (Returned (Err e), s') ->
  retry_loop op (S k) delay cap env s
  = retry_loop op k (Z.min cap (2 * delay)) cap env
      (log_sleep (jittered delay cap (noise env (draws s'))) (draw s')).
Proof. intros H. cbn [retry_loop]. run. rewrite H. reflexivity. Qed.

Lemma retry_loop_last_failure {T E} (op : M (Result T E)) delay cap env s e s' :
  op env s = (Returned (Err e), s') ->
  retry_loop op 0 delay cap env s = (Returned (Err e), s').
Proof. intros H. cbn [retry_loop]. run. rewrite H. reflexivity. Qed.

Lemma retry_loop_success {T E} (op : M (Result T E)) k delay cap env s v s' :
  op env s = (Returned (Ok v), s') ->
  retry_loop op k delay cap env s = (Returned (Ok v), s').
Proof. intros H. destruct k; cbn [retry_loop]; run; rewrite H; reflexivity. Qed.

Lemma fetchPublicCertificate_unfold config :
  fetchPublicCertificate config
  = retry_loop (fetchPublicCertificateOnce config) 2 1000 10000.
Proof. reflexivity. Qed.

(** C8.  [fetchPublicCertificate] is the single-attempt GET of the
    certificate run by the retry driver with three attempts, a first delay
    of 1000 ms and a cap of 10000 ms.  An attempt that gets a 2xx answer
    ends the call with the body of that answer, untouched.  An attempt that
    gets any other answer, or a transport failure, is a failure the driver
    retries: it sleeps (1000 ms, then 2000 ms, each with jitter and kept
    within 0 and 10000 ms) and sends the same GET again; after the third
    failed attempt the call fails with the message of that last attempt and
    no further request is sent. *)
Theorem fetchPublicCertificate_retry
    (config : PluginConfig) (env : Env) (s : State) :
  let n := length (sent s) in
  let q := certificate_request config in
  let d1 := jittered 1000 10000 (noise env (draws s)) in
  let d2 := jittered 2000 10000 (noise env (S (draws s))) in
  let run := fetchPublicCertificate config env s in
  fetchPublicCertificate config
  = retryWithBackoff (fetchPublicCertificateOnce config)
      {| maxAttempts := 3; initialDelayMs := 1000; maxDelayMs := 10000 |}
  /\ (forall after r,
      network env n = Resolves after r -> ok r = true ->
      fst run = Returned (Ok (text r))
      /\ sent (snd run) = (sent s ++ [q])%list
      /\ slept (snd run) = slept s)
  /\ (forall m0 after r,
      attempt_failure (network env n) = Some m0 ->
      network env (S n) = Resolves after r -> ok r = true ->
      fst run = Returned (Ok (text r))
      /\ sent (snd run) = (sent s ++ [q; q])%list
      /\ slept (snd run) = (slept s ++ [d1])%list)
  /\ (forall m0 m1 after r,
      attempt_failure (network env n) = Some m0 ->
      attempt_failure (network env (S n)) = Some m1 ->
      network env (S (S n)) = Resolves after r -> ok r = true ->
      fst run = Returned (Ok (text r))
      /\ sent (snd run) = (sent s ++ [q; q; q])%list
      /\ slept (snd run) = (slept s ++ [d1; d2])%list)
  /\ (forall m0 m1 m2,
      attempt_failure (network env n) = Some m0 ->
      attempt_failure (network env (S n)) = Some m1 ->
      attempt_failure (network env (S (S n))) = Some m2 ->
      fst run = Returned (Err ("Unable to fetch controller certificate: " +:+ m2))
      /\ sent (snd run) = (sent s ++ [q; q; q])%list
      /\ slept (snd run) = (slept s ++ [d1; d2])%list)
  /\ 0 <= d1 <= 10000 /\ 0 <= d2 <= 10000.
Proof.
  intros n q d1 d2 run. subst run. rewrite fetchPublicCertificate_unfold.
  set (s1 := log_sleep d1 (draw (log_request q s))).
  set (s2 := log_sleep d2 (draw (log_request q s1))).
  assert (Hlen1 : length (sent s1) = S n).
  { subst s1 n. cbn [sent log_sleep draw log_request].
    rewrite length_app. cbn [length]. lia. }
  assert (Hlen2 : length (sent s2) = S (S n)).
  { subst s2. cbn [sent log_sleep draw log_request].
    rewrite length_app, Hlen1. cbn [length]. lia. }
  assert (Hstep1 : forall m0, attempt_failure (network env n) = Some m0 ->
    retry_loop (fetchPublicCertificateOnce config) 2 1000 10000 env s
    = retry_loop (fetchPublicCertificateOnce config) 1 2000 10000 env s1).
  { intros m0 H0.
    rewrite (retry_loop_failure _ 1 1000 10000 env s _ _
               (fetchPublicCertificateOnce_failure config env s m0 H0)).
    reflexivity. }
  assert (Hstep2 : forall m1, attempt_failure (network env (S n)) = Some m1 ->
    retry_loop (fetchPublicCertificateOnce config) 1 2000 10000 env s1
    = retry_loop (fetchPublicCertificateOnce config) 0 4000 10000 env s2).
  { intros m1 H1. rewrite <- Hlen1 in H1.
    rewrite (retry_loop_failure _ 0 2000 10000 env s1 _ _
               (fetchPublicCertificateOnce_failure config env s1 m1 H1)).
    reflexivity. }
  assert (Hsent1 : sent (log_request q s1) = (sent s ++ [q; q])%list).
  { change (sent (log_request q s1)) with ((sent s ++ [q]) ++ [q])%list.
    now rewrite <- !app_assoc. }
  assert (Hsent2 : sent (log_request q s2) = (sent s ++ [q; q; q])%list).
  { change (sent (log_request q s2)) with (((sent s ++ [q]) ++ [q]) ++ [q])%list.
    now rewrite <- !app_assoc. }
  assert (Hslept2 : slept (log_request q s2) = (slept s ++ [d1; d2])%list).
  { change (slept (log_request q s2)) with ((slept s ++ [d1]) ++ [d2])%list.
    now rewrite <- !app_assoc. }
  split; [reflexivity|].
  repeat apply conj.
  - intros after r Hnet Hok.
    rewrite (retry_loop_success _ 2 1000 10000 env s _ _
               (fetchPublicCertificateOnce_success config env s after r Hnet Hok)).
    repeat split.
  - intros m0 after r H0 Hnet Hok.
    rewrite (Hstep1 m0 H0). rewrite <- Hlen1 in Hnet.
    rewrite (retry_loop_success _ 1 2000 10000 env s1 _ _
               (fetchPublicCertificateOnce_success config env s1 after r Hnet Hok)).
    cbn [fst snd]. repeat split. exact Hsent1.
  - intros m0 m1 after r H0 H1 Hnet Hok.
    rewrite (Hstep1 m0 H0), (Hstep2 m1 H1). rewrite <- Hlen2 in Hnet.
    rewrite (retry_loop_success _ 0 4000 10000 env s2 _ _
               (fetchPublicCertificateOnce_success config env s2 after r Hnet Hok)).
    cbn [fst snd]. repeat split; [exact Hsent2 | exact Hslept2].
  - intros m0 m1 m2 H0 H1 H2.
    rewrite (Hstep1 m0 H0), (Hstep2 m1 H1). rewrite <- Hlen2 in H2.
    rewrite (retry_loop_last_failure _ 4000 10000 env s2 _ _
               (fetchPublicCertificateOnce_failure config env s2 m2 H2)).
    cbn [fst snd]. repeat split; [exact Hsent2 | exact Hslept2].
  - apply jittered_bounds. lia.
  - apply jittered_bounds. lia.
  - apply jittered_bounds. lia.
  - apply jittered_bounds. lia.
Qed.

End CertificateFetch.

Section CertificateFetchWitness.
Import Controller Samples.

Lemma fetchPublicCertificate_retry_witness :
  let flaky := scripted_env [Rejects 3 "Failed to fetch";
                             Resolves 5 healthz_503;
                             Resolves 8 certificate_response] [120; -3000] in
  let down := scripted_env [Rejects 3 "Failed to fetch";
                            Rejects 3 "Failed to fetch";
                            Resolves 5 healthz_503] [120; -3000] in
  let q := certificate_request default_config in
  (fst (fetchPublicCertificate default_config flaky initial_state)
     = Returned (Ok sample_pem)
   /\ sent (snd (fetchPublicCertificate default_config flaky initial_state)) = [q; q; q]
   /\ slept (snd (fetchPublicCertificate default_config flaky initial_state)) = [1120; 0])
  /\ (fst (fetchPublicCertificate default_config down initial_state)
     = Returned (Err ("Unable to fetch controller certificate: "
                      +:+ "Failed to fetch certificate: 503 Service Unavailable"))
   /\ sent (snd (fetchPublicCertificate default_config down initial_state)) = [q; q; q]
   /\ slept (snd (fetchPublicCertificate default_config down initial_state)) = [1120; 0]).
Proof.
  cbv zeta. split.
  - apply (proj1 (proj2 (proj2 (proj2 (fetchPublicCertificate_retry default_config
             (scripted_env [Rejects 3 "Failed to fetch";
                            Resolves 5 healthz_503;
                            Resolves 8 certificate_response] [120; -3000])
             initial_state))))
           "Failed to fetch" "Failed to fetch certificate: 503 Service Unavailable"
           8 certificate_response);
      reflexivity.
  - apply (proj1 (proj2 (proj2 (proj2 (proj2 (fetchPublicCertificate_retry
             default_config
             (scripted_env [Rejects 3 "Failed to fetch";
                            Rejects 3 "Failed to fetch";
                            Resolves 5 healthz_503] [120; -3000])
             initial_state)))))
           "Failed to fetch" "Failed to fetch"
           "Failed to fetch certificate: 503 Service Unavailable");
      reflexivity.
Defined.

End CertificateFetchWitness.

(** ** The persisted configuration *)
Section PluginConfiguration.
Import Controller.

Variable JSON_parse : string -> JsError + Json.

(** The empty text is not a JSON document. *)
Hypothesis JSON_parse_empty : forall v, JSON_parse "" <> inr v.

(** C9.  [getPluginConfig] returns what [JSON.parse] makes of the stored
    text when the key is present and the text parses; when the key is
    absent, or the text does not parse, it returns the default
    configuration (sealed-secrets-controller, kube-system, 8080).  It always
    returns normally and never writes to the storage. *)
Theorem getPluginConfig_fallback (env : Env) (s : State) :
  (forall stored v,
      localStorage s !! CONFIG_KEY = Some stored -> JSON_parse stored = inr v ->
      getPluginConfig JSON_parse env s = (Returned v, s))
  /\ (localStorage s !! CONFIG_KEY = None ->
      getPluginConfig JSON_parse env s = (Returned (config_object default_config), s))
  /\ (forall stored e,
      localStorage s !! CONFIG_KEY = Some stored -> JSON_parse stored = inl e ->
      getPluginConfig JSON_parse env s = (Returned (config_object default_config), s))
  /\ (exists v, getPluginConfig JSON_parse env s = (Returned v, s))
  /\ config_object default_config
     = JObj [("controllerName", JStr "sealed-secrets-controller");
             ("controllerNamespace", JStr "kube-system");
             ("controllerPort", JNum 8080)].
Proof.
  unfold getPluginConfig, JSON_parse_M. run.
  repeat apply conj.
  - intros stored v -> Hparse.
    destruct stored as [|c rest].
    + exfalso. exact (JSON_parse_empty v Hparse).
    + cbn [truthy]. now rewrite Hparse.
  - now intros ->.
  - intros stored e -> Hparse.
    destruct (truthy stored); [|reflexivity]. now rewrite Hparse.
  - destruct (localStorage s !! CONFIG_KEY) as [stored|]; [|eauto].
    destruct (truthy stored); [|eauto].
    destruct (JSON_parse stored); eauto.
  - reflexivity.
Qed.

End PluginConfiguration.

Section PluginConfigurationWitness.
Import Controller Samples.

Lemma sample_JSON_parse_empty : forall v, sample_JSON_parse "" <> inr v.
Proof. intros v. discriminate. Qed.

Lemma getPluginConfig_fallback_witness :
  fst (getPluginConfig sample_JSON_parse (constant_env Hangs)
         (state_with_storage (Some stored_config_text)))
    = Returned (config_object stored_config)
  /\ fst (getPluginConfig sample_JSON_parse (constant_env Hangs)
         (state_with_storage None))
    = Returned (config_object default_config)
  /\ fst (getPluginConfig sample_JSON_parse (constant_env Hangs)
         (state_with_storage (Some "{not json")))
    = Returned (config_object default_config).
Proof.
  split; [|split].
  - rewrite (proj1 (getPluginConfig_fallback sample_JSON_parse
               sample_JSON_parse_empty (constant_env Hangs)
               (state_with_storage (Some stored_config_text)))
             stored_config_text (config_object stored_config) eq_refl eq_refl).
    reflexivity.
  - rewrite (proj1 (proj2 (getPluginConfig_fallback sample_JSON_parse
               sample_JSON_parse_empty (constant_env Hangs)
               (state_with_storage None))) eq_refl).
    reflexivity.
  - rewrite (proj1 (proj2 (proj2 (getPluginConfig_fallback sample_JSON_parse
               sample_JSON_parse_empty (constant_env Hangs)
               (state_with_storage (Some "{not json")))))
             "{not json" {| name := "SyntaxError"; message := "Unexpected token" |}
             eq_refl eq_refl).
    reflexivity.
Defined.

End PluginConfigurationWitness.

(** ** The sealing envelope *)
Section SealingEnvelope.
Import Sealing.

(** *** Base64 *)

Lemma sextet_table : forallb sextet_ok (seq 0 64) = true.
Proof. vm_compute. reflexivity. Qed.

Lemma sextet_roundtrip (n : N) :
  (n < 64)%N ->
  char_sextet (sextet_char n) = Some n /\ Ascii.eqb (sextet_char n) PAD = false.
Proof.
  intros Hn.
  assert (Hin : In (N.to_nat n) (seq 0 64)) by (apply in_seq; lia).
  pose proof (proj1 (forallb_forall sextet_ok (seq 0 64)) sextet_table _ Hin) as H.
  unfold sextet_ok in H. rewrite N2Nat.id in H.
  destruct (char_sextet (sextet_char n)) as [m|]; [|discriminate].
  apply andb_prop in H. destruct H as [H1 H2].
  apply N.eqb_eq in H1. subst m.
  split; [reflexivity|]. now apply negb_true_iff in H2.
Qed.

(** Three-step induction on lists, following the groups of the encoder. *)
Lemma list_ind3 {A} (P : list A -> Prop) :
  P [] -> (forall a, P [a]) -> (forall a b, P [a; b]) ->
  (forall a b c rest, P rest -> P (a :: b :: c :: rest)) ->
  forall l, P l.
Proof.
  intros H0 H1 H2 H3.
  assert (H : forall n l, (length l <= n)%nat -> P l).
  { induction n as [|n IH]; intros l Hl.
    - destruct l; [exact H0 | simpl in Hl; lia].
    - destruct l as [|a [|b [|c rest]]]; auto.
      apply H3, IH. simpl in Hl. lia. }
  intros l. exact (H (length l) l (le_n _)).
Qed.

Ltac div_mod_arith :=
  zify; Z.to_euclidean_division_equations; lia.

Lemma byte_bound (b : byte) : (Byte.to_N b < 256)%N.
Proof. pose proof (Byte.to_N_bounded b). lia. Qed.

Lemma of_N_eq (n : N) (b : byte) : n = Byte.to_N b -> Byte.of_N n = Some b.
Proof. intros ->. apply Byte.of_to_N. Qed.

(** The decoder inverts the encoder. *)
Lemma base64_decode_encode (data : bytes) :
  base64_decode (base64_encode data) = Some data.
Proof.
  induction data as [|a|a b|a b c rest IH] using list_ind3.
  - reflexivity.
  - cbn [base64_encode base64_decode].
    pose proof (byte_bound a) as Ha.
    set (x := Byte.to_N a) in *.
    destruct (sextet_roundtrip (x / 4)) as [E0 _]; [div_mod_arith|].
    destruct (sextet_roundtrip ((x mod 4) * 16)) as [E1 _]; [div_mod_arith|].
    rewrite E0, E1. cbn [mbind option_bind].
    rewrite (of_N_eq _ a) by (fold x; div_mod_arith).
    reflexivity.
  - cbn [base64_encode base64_decode].
    pose proof (byte_bound a) as Ha. pose proof (byte_bound b) as Hb.
    set (x := Byte.to_N a) in *. set (y := Byte.to_N b) in *.
    destruct (sextet_roundtrip (x / 4)) as [E0 _]; [div_mod_arith|].
    destruct (sextet_roundtrip ((x mod 4) * 16 + y / 16)) as [E1 _]; [div_mod_arith|].
    destruct (sextet_roundtrip ((y mod 16) * 4)) as [E2 N2]; [div_mod_arith|].
    rewrite E0, E1. cbn [mbind option_bind].
    rewrite (of_N_eq _ a) by (fold x; div_mod_arith).
    rewrite N2, E2. cbn [mbind option_bind].
    rewrite (of_N_eq _ b) by (fold y; div_mod_arith).
    reflexivity.
  - cbn [base64_encode base64_decode].
    pose proof (byte_bound a) as Ha. pose proof (byte_bound b) as Hb.
    pose proof (byte_bound c) as Hc.
    set (x := Byte.to_N a) in *. set (y := Byte.to_N b) in *.
    set (z := Byte.to_N c) in *.
    destruct (sextet_roundtrip (x / 4)) as [E0 _]; [div_mod_arith|].
    destruct (sextet_roundtrip ((x mod 4) * 16 + y / 16)) as [E1 _]; [div_mod_arith|].
    destruct (sextet_roundtrip ((y mod 16) * 4 + z / 64)) as [E2 N2]; [div_mod_arith|].
    destruct (sextet_roundtrip (z mod 64)) as [E3 N3]; [div_mod_arith|].
    rewrite E0, E1. cbn [mbind option_bind].
    rewrite (of_N_eq _ a) by (fold x; div_mod_arith).
    rewrite N2, E2. cbn [mbind option_bind].
    rewrite (of_N_eq _ b) by (fold y; div_mod_arith).
    rewrite N3, E3. cbn [mbind option_bind].
    rewrite (of_N_eq _ c) by (fold z; div_mod_arith).
    rewrite IH. reflexivity.
Qed.

(** *** The length prefix *)

Lemma be_decode_snoc (data : bytes) (b : byte) :
  be_decode (data ++ [b])%list = (be_decode data * 256 + Byte.to_N b)%N.
Proof. unfold be_decode. now rewrite fold_left_app. Qed.

Lemma be_encode_length (width : nat) (n : N) : length (be_encode width n) = width.
Proof.
  revert n. induction width as [|w IH]; intros n; cbn [be_encode]; [reflexivity|].
  rewrite length_app, IH. cbn [length]. lia.
Qed.

(** A length that fits the prefix is read back as written. *)
Lemma be_decode_encode (width : nat) (n : N) :
  (n < 256 ^ N.of_nat width)%N -> be_decode (be_encode width n) = n.
Proof.
  revert n. induction width as [|w IH]; intros n Hn.
  - cbn in Hn. cbn. unfold be_decode. cbn. lia.
  - cbn [be_encode]. rewrite be_decode_snoc.
    assert (Hq : (n / 256 < 256 ^ N.of_nat w)%N).
    { rewrite Nat2N.inj_succ, N.pow_succ_r' in Hn.
      apply N.Div0.div_lt_upper_bound. lia. }
    rewrite (IH _ Hq).
    assert (Hm : (n mod 256 < 256)%N) by (apply N.mod_lt; lia).
    destruct (Byte.of_N (n mod 256)) as [b|] eqn:E.
    + apply Byte.to_of_N in E. rewrite E. div_mod_arith.
    + exfalso.
      pose proof (Byte.to_of_N_option_map (n mod 256)) as Hmap.
      rewrite E in Hmap. cbn [option_map] in Hmap.
      destruct (N.leb_spec (n mod 256) 255); [discriminate | lia].
Qed.

Lemma split_exact_app (a b : bytes) :
  split_exact (length a) (a ++ b)%list = Some (a, b).
Proof.
  unfold split_exact.
  assert (H : (length a <=? length (a ++ b)%list)%nat = true).
  { apply Nat.leb_le. rewrite length_app. lia. }
  rewrite H. now rewrite take_app_length, drop_app_length.
Qed.



(** *** Exclusive or and equality of byte strings *)

Lemma byte_xor_cancel (a b : byte) : byte_xor (byte_xor a b) b = a.
Proof.
  transitivity (Byte.of_bits (Byte.to_bits a)); [|apply Byte.of_bits_to_bits].
  unfold byte_xor.
  destruct (Byte.to_bits a) as (a0 & a1 & a2 & a3 & a4 & a5 & a6 & a7).
  destruct (Byte.to_bits b) as (b0 & b1 & b2 & b3 & b4 & b5 & b6 & b7).
  rewrite Byte.to_bits_of_bits.
  now rewrite !xorb_assoc, !xorb_nilpotent, !xorb_false_r.
Qed.

Lemma xor_bytes_length (a b : bytes) :
  length a = length b -> length (xor_bytes a b) = length a.
Proof. apply length_zip_with_l_eq. Qed.

Lemma xor_bytes_cancel (a b : bytes) :
  length a = length b -> xor_bytes (xor_bytes a b) b = a.
Proof.
  revert b. induction a as [|x a IH]; intros [|y b] Hlen;
    try discriminate; [reflexivity|].
  cbn [xor_bytes zip_with]. rewrite byte_xor_cancel. f_equal.
  apply IH. now injection Hlen.
Qed.

Lemma bytes_eqb_eq (a b : bytes) : bytes_eqb a b = true <-> a = b.
Proof.
  revert b. induction a as [|x a IH]; intros [|y b]; cbn [bytes_eqb];
    try (split; [discriminate | congruence]); [tauto|].
  rewrite andb_true_iff, IH. split.
  - intros [Hxy ->]. f_equal. now apply Byte.byte_dec_bl.
  - intros [= -> ->]. split; [|reflexivity]. now apply Byte.byte_dec_lb.
Qed.

Lemma bytes_eqb_refl (a : bytes) : bytes_eqb a a = true.
Proof. now apply bytes_eqb_eq. Qed.


(** *** OAEP *)

Lemma after_padding_found (n : nat) (m : bytes) :
  after_padding (replicate n "000"%byte ++ "001"%byte :: m)%list = Some m.
Proof. induction n as [|n IH]; [reflexivity|exact IH]. Qed.

(** The peer's decoding of an encoded message gives the message back when
    the digest of the peer's label is the digest of the label encoded, and
    fails when it is not. *)
Lemma oaep_decode_encode (P : Primitives) (label label' seed m em : bytes) :
  hash_length P -> mask_length P ->
  oaep_encode P label seed m = Some em ->
  (exists rest, em = "000"%byte :: rest)
  /\ length em = modulus_bytes P
  /\ oaep_decode P label' em
     = if bytes_eqb (Hash P label) (Hash P label') then Some m else None.
Proof.
  intros Hhash Hmask. unfold oaep_encode.
  destruct (length m + 2 * digest_bytes P + 2 <=? modulus_bytes P)%nat eqn:Hfit;
    [|discriminate].
  destruct (length seed =? digest_bytes P)%nat eqn:Hseed; [|discriminate].
  apply Nat.leb_le in Hfit. apply Nat.eqb_eq in Hseed.
  cbn [andb]. cbv zeta.
  set (k := modulus_bytes P) in *. set (hLen := digest_bytes P) in *.
  set (DB := (Hash P label ++ replicate (k - length m - 2 * hLen - 2) "000"%byte
              ++ "001"%byte :: m)%list).
  assert (HDB : length DB = (k - hLen - 1)%nat).
  { unfold DB. rewrite !length_app, length_replicate, Hhash. cbn [length].
    fold hLen. lia. }
  set (maskedDB := xor_bytes DB (MGF P seed (k - hLen - 1))).
  assert (HmDB : length maskedDB = (k - hLen - 1)%nat).
  { unfold maskedDB. rewrite xor_bytes_length; [exact HDB|].
    now rewrite Hmask. }
  set (maskedSeed := xor_bytes seed (MGF P maskedDB hLen)).
  assert (HmSeed : length maskedSeed = hLen).
  { unfold maskedSeed. rewrite xor_bytes_length; [exact Hseed|].
    now rewrite Hmask. }
  intros [= <-]. split; [eauto|]. split.
  { cbn [length]. rewrite length_app, HmSeed, HmDB. lia. }
  unfold oaep_decode. fold k hLen.
  rewrite (take_app_length' maskedSeed maskedDB hLen) by now rewrite HmSeed.
  rewrite (drop_app_length' maskedSeed maskedDB hLen) by now rewrite HmSeed.
  cbv zeta. fold maskedSeed.
  assert (Hs : xor_bytes maskedSeed (MGF P maskedDB hLen) = seed).
  { unfold maskedSeed. apply xor_bytes_cancel. now rewrite Hmask. }
  rewrite Hs.
  assert (Hd : xor_bytes maskedDB (MGF P seed (k - hLen - 1)) = DB).
  { unfold maskedDB. apply xor_bytes_cancel. now rewrite Hmask. }
  rewrite Hd. unfold DB at 1 2.
  rewrite (take_app_length' (Hash P label) _ hLen) by now rewrite Hhash.
  rewrite (drop_app_length' (Hash P label) _ hLen) by now rewrite Hhash.
  change (Byte.eqb "000" "000") with true. cbn [andb].
  now rewrite after_padding_found.
Qed.


(** What the private key makes of a ciphertext: the message under a label
    with the digest of the label of encryption, nothing under a label with
    another digest. *)
Lemma rsa_oaep_decrypt_encrypt (P : Primitives)
    (pub : PublicKey P) (priv : PrivateKey P) (label label' seed m c : bytes) :
  key_pair P pub priv -> hash_length P -> mask_length P ->
  rsa_oaep_encrypt P pub label seed m = Some c ->
  length c = modulus_bytes P
  /\ rsa_oaep_decrypt P priv label' c
     = if bytes_eqb (Hash P label) (Hash P label') then Some m else None.
Proof.
  intros Hkeys Hhash Hmask. unfold rsa_oaep_encrypt.
  destruct (oaep_encode P label seed m) as [em|] eqn:Hem; [|discriminate].
  cbn [mbind option_bind]. intros [= <-].
  destruct (oaep_decode_encode P label label' seed m em Hhash Hmask Hem)
    as [[rest Hzero] [Hlen Hdec]].
  destruct (Hkeys em rest Hzero Hlen) as [Hsize Hinv].
  split; [exact Hsize|].
  unfold rsa_oaep_decrypt. rewrite Hsize, Nat.eqb_refl, Hinv.
  assert (Hk : (2 * digest_bytes P + 2 <=? modulus_bytes P)%nat = true).
  { apply Nat.leb_le. unfold oaep_encode in Hem.
    destruct (length m + 2 * digest_bytes P + 2 <=? modulus_bytes P)%nat eqn:Hfit;
      [|discriminate].
    apply Nat.leb_le in Hfit. lia. }
  rewrite Hk. exact Hdec.
Qed.

(** *** Round trip and label binding *)

(** What the peer finds in a freshly sealed envelope. *)
Lemma unseal_seal_parts (F : Format) (P : Primitives)
    (pub : PublicKey P) (priv : PrivateKey P)
    (label : bytes) (rnd : Randomness) (plaintext wrapped : bytes) :
  rsa_oaep_encrypt P pub label (padding_seed rnd) (session_key rnd) = Some wrapped ->
  length (nonce rnd) = nonce_width F ->
  (N.of_nat (length wrapped) < 256 ^ N.of_nat (prefix_width F))%N ->
  exists sealed,
    seal F P pub label rnd plaintext = Some sealed
    /\ forall label',
         unseal F P priv label' sealed
         = (key ← rsa_oaep_decrypt P priv label' wrapped;
            aead_open P key (nonce rnd) label'
              (aead_seal P (session_key rnd) (nonce rnd) label plaintext)).
Proof.
  intros Hwrapped Hnonce Hfit. unfold seal. rewrite Hwrapped.
  cbn [mbind option_bind]. eexists. split; [reflexivity|].
  intros label'. unfold unseal.
  rewrite base64_decode_encode. cbn [mbind option_bind].
  rewrite <- (be_encode_length (prefix_width F) (N.of_nat (length wrapped))) at 1.
  rewrite split_exact_app. cbn [mbind option_bind].
  rewrite (be_decode_encode _ _ Hfit), Nat2N.id.
  rewrite split_exact_app. cbn [mbind option_bind].
  rewrite <- Hnonce, split_exact_app. reflexivity.
Qed.


(** The condition on the digests is as weak as it can be: under a label
    with the digest of the sealing label the session key is recovered, and
    what is left to tell the labels apart is the tag of the payload. *)
Lemma unseal_same_digest (F : Format) (P : Primitives)
    (pub : PublicKey P) (priv : PrivateKey P)
    (label label' : bytes) (rnd : Randomness) (plaintext : bytes) (sealed : string) :
  key_pair P pub priv -> hash_length P -> mask_length P ->
  length (nonce rnd) = nonce_width F ->
  (N.of_nat (modulus_bytes P) < 256 ^ N.of_nat (prefix_width F))%N ->
  seal F P pub label rnd plaintext = Some sealed ->
  Hash P label' = Hash P label ->
  unseal F P priv label' sealed
  = aead_open P (session_key rnd) (nonce rnd) label'
      (aead_seal P (session_key rnd) (nonce rnd) label plaintext).
Proof.
  intros Hkeys Hhash Hmask Hnonce Hprefix Hsealed Hsame.
  destruct (rsa_oaep_encrypt P pub label (padding_seed rnd) (session_key rnd))
    as [wrapped|] eqn:Hwrapped;
    [|unfold seal in Hsealed; rewrite Hwrapped in Hsealed; discriminate].
  destruct (rsa_oaep_decrypt_encrypt P pub priv label label' _ _ _
              Hkeys Hhash Hmask Hwrapped) as [Hsize Hdec].
  assert (Hwidth : (N.of_nat (length wrapped) < 256 ^ N.of_nat (prefix_width F))%N)
    by now rewrite Hsize.
  destruct (unseal_seal_parts F P pub priv label rnd plaintext wrapped
              Hwrapped Hnonce Hwidth) as [sealed' [Hsealed' Hparts]].
  assert (sealed' = sealed) by congruence. subst sealed'.
  rewrite Hparts, Hdec, Hsame, bytes_eqb_refl. reflexivity.
Qed.

(** *** The instance meets the contracts *)








(** The scenario of the spec: the same value sealed twice under the same
    key and label gives two different envelopes, and each one opens to the
    value. *)
Example sealing_twice :
  let hello := list_byte_of_string "hello" in
  exists first second,
    seal kubeseal_format toy_primitives toy_public greeting_label
      sample_randomness hello = Some first
    /\ seal kubeseal_format toy_primitives toy_public greeting_label
         other_randomness hello = Some second
    /\ first <> second
    /\ unseal kubeseal_format toy_primitives toy_private greeting_label first
       = Some hello
    /\ unseal kubeseal_format toy_primitives toy_private greeting_label second
       = Some hello.
Proof.
  cbv zeta. eexists. eexists.
  split; [vm_compute; reflexivity|]. split; [vm_compute; reflexivity|].
  split; [discriminate|]. split; vm_compute; reflexivity.
Qed.

End SealingEnvelope.

(* ===================================================================== *)
(** * Part III: further properties of the code                             *)
(* ===================================================================== *)

(** Closes the cases of a run whose network outcome is known. *)
Ltac settle :=
  repeat apply conj; intros; simplify_eq; try reflexivity; try discriminate.

(** ** Verification and rotation *)
Section VerifyRotate.
Import Controller ControllerOps.

(** [verifySealedSecret] sends one POST to the verify endpoint and nothing
    else.  Any answer, 2xx or not, is a success of the call, whose value is
    the [ok] flag of the answer: a rejected manifest is [Ok false], not an
    error.  Only a transport failure is an error, "Verification failed: "
    followed by the failure's message.  The call never throws, and stays
    pending only if the network never settles. *)
Theorem verifySealedSecret_outcomes
    (config : PluginConfig) (yaml : string) (env : Env) (s : State) :
  let o := network env (length (sent s)) in
  let run := verifySealedSecret config yaml env s in
  snd run = log_request (verify_request config) s
  /\ (forall after r, o = Resolves after r -> fst run = Returned (Ok (ok r)))
  /\ (forall after msg, o = Rejects after msg ->
        fst run = Returned (Err ("Verification failed: " +:+ msg)))
  /\ (o = Hangs -> fst run = Pending)
  /\ (forall e, fst run <> Threw e).
Proof.
  cbv zeta. unfold verifySealedSecret, fetch_post. run.
  fold (verify_request config).
  destruct (network env (length (sent s))) as [after r|after msg|];
    cbn [fst snd]; settle.
Qed.

(** [rotateSealedSecret] sends one POST to the rotate endpoint and nothing
    else.  A 2xx answer gives its body unchanged; any other answer is an
    error that carries the status and its text; a transport failure is an
    error that carries the failure's message; every error message starts
    with "Unable to rotate SealedSecret: ".  The call never throws. *)
Theorem rotateSealedSecret_outcomes
    (config : PluginConfig) (yaml : string) (env : Env) (s : State) :
  let o := network env (length (sent s)) in
  let run := rotateSealedSecret config yaml env s in
  snd run = log_request (rotate_request config) s
  /\ (forall after r, o = Resolves after r -> ok r = true ->
        fst run = Returned (Ok (text r)))
  /\ (forall after r, o = Resolves after r -> ok r = false ->
        fst run = Returned (Err ("Unable to rotate SealedSecret: "
                                 +:+ "Rotation failed: " +:+ Number_toString (status r)
                                 +:+ " " +:+ statusText r)))
  /\ (forall after msg, o = Rejects after msg ->
        fst run = Returned (Err ("Unable to rotate SealedSecret: " +:+ msg)))
  /\ (o = Hangs -> fst run = Pending)
  /\ (forall e, fst run <> Threw e).
Proof.
  cbv zeta. unfold rotateSealedSecret, fetch_post. run.
  fold (rotate_request config).
  destruct (network env (length (sent s))) as [after r|after msg|].
  - destruct (ok r) eqn:Hok; cbn [negb fst snd]; settle; congruence.
  - cbn [fst snd]. settle.
  - cbn [fst snd]. settle.
Qed.

End VerifyRotate.

Section VerifyRotateWitness.
Import Controller ControllerOps Samples.

Lemma verifySealedSecret_outcomes_witness :
  fst (verifySealedSecret default_config "kind: SealedSecret"
         (constant_env (Resolves 4 healthz_503)) initial_state)
    = Returned (Ok false)
  /\ fst (verifySealedSecret default_config "kind: SealedSecret"
         (constant_env (Rejects 4 "Failed to fetch")) initial_state)
    = Returned (Err "Verification failed: Failed to fetch").
Proof.
  split.
  - apply (proj1 (proj2 (verifySealedSecret_outcomes default_config
             "kind: SealedSecret" (constant_env (Resolves 4 healthz_503))
             initial_state)) 4 healthz_503 eq_refl).
  - apply (proj1 (proj2 (proj2 (verifySealedSecret_outcomes default_config
             "kind: SealedSecret" (constant_env (Rejects 4 "Failed to fetch"))
             initial_state))) 4 "Failed to fetch" eq_refl).
Defined.

Lemma rotateSealedSecret_outcomes_witness :
  fst (rotateSealedSecret default_config "kind: SealedSecret"
         (constant_env (Resolves 4 certificate_response)) initial_state)
    = Returned (Ok sample_pem)
  /\ fst (rotateSealedSecret default_config "kind: SealedSecret"
         (constant_env (Resolves 4 healthz_503)) initial_state)
    = Returned (Err "Unable to rotate SealedSecret: Rotation failed: 503 Service Unavailable").
Proof.
  split.
  - apply (proj1 (proj2 (rotateSealedSecret_outcomes default_config
             "kind: SealedSecret" (constant_env (Resolves 4 certificate_response))
             initial_state)) 4 certificate_response eq_refl eq_refl).
  - apply (proj1 (proj2 (proj2 (rotateSealedSecret_outcomes default_config
             "kind: SealedSecret" (constant_env (Resolves 4 healthz_503))
             initial_state))) 4 healthz_503 eq_refl eq_refl).
Defined.

End VerifyRotateWitness.

(** ** Saving and reading the configuration *)
Section SaveConfiguration.
Import Controller ControllerOps.

Variable JSON_parse : string -> JsError + Json.
Variable JSON_stringify : Json -> string.
Variable setItem_refusal : string -> string -> gmap string string -> option JsError.

(** A configuration that was saved is the one read back: when the storage
    takes the write, the save returns normally and [getPluginConfig] then
    returns that configuration, provided the platform's parser reads what
    its printer wrote for it (and, as always, rejects the empty text).
    Reading does not change the state the save left. *)
Theorem savePluginConfig_getPluginConfig
    (config : PluginConfig) (env : Env) (s : State) :
  (forall v, JSON_parse "" <> inr v) ->
  JSON_parse (JSON_stringify (config_object config)) = inr (config_object config) ->
  setItem_refusal CONFIG_KEY (JSON_stringify (config_object config)) (localStorage s)
    = None ->
  let saved := snd (savePluginConfig setItem_refusal JSON_stringify config env s) in
  fst (savePluginConfig setItem_refusal JSON_stringify config env s) = Returned tt
  /\ getPluginConfig JSON_parse env saved = (Returned (config_object config), saved).
Proof.
  intros Hempty Hround Htaken saved.
  assert (Hrun : savePluginConfig setItem_refusal JSON_stringify config env s
                 = (Returned tt,
                    set_localStorage
                      (<[CONFIG_KEY := JSON_stringify (config_object config)]>
                         (localStorage s)) s)).
  { unfold savePluginConfig, localStorage_setItem. now rewrite Htaken. }
  subst saved. rewrite Hrun. cbn [fst snd]. split; [reflexivity|].
  unfold getPluginConfig, JSON_parse_M. run.
  cbn [localStorage set_localStorage]. rewrite lookup_insert_eq.
  destruct (JSON_stringify (config_object config)) as [|c rest] eqn:E.
  - exfalso. exact (Hempty _ Hround).
  - cbn [truthy]. rewrite Hround. reflexivity.
Qed.


End SaveConfiguration.

Section SaveConfigurationWitness.
Import Controller ControllerOps Samples MoreSamples.

Lemma savePluginConfig_getPluginConfig_witness :
  let saved := snd (savePluginConfig roomy_storage sample_JSON_stringify stored_config
                      (constant_env Hangs) initial_state) in
  fst (savePluginConfig roomy_storage sample_JSON_stringify stored_config
         (constant_env Hangs) initial_state) = Returned tt
  /\ getPluginConfig sample_JSON_parse (constant_env Hangs) saved
     = (Returned (config_object stored_config), saved).
Proof.
  exact (savePluginConfig_getPluginConfig sample_JSON_parse sample_JSON_stringify
           roomy_storage stored_config (constant_env Hangs) initial_state
           sample_JSON_parse_empty eq_refl eq_refl).
Defined.


End SaveConfigurationWitness.

(** ** The shape of a health status, and of a certificate attempt *)
Section ProbeShape.
Import Controller.

Lemma truthy_nonempty (m : string) : truthy m = true -> m <> "".
Proof. destruct m; [discriminate | discriminate]. Qed.

Lemma or_undefined_nonempty (o : option string) (v : string) :
  or_undefined o = Some v -> v <> "".
Proof.
  destruct o as [w|]; cbn [or_undefined]; [|discriminate].
  destruct (truthy w) eqn:E; [|discriminate].
  intros [= <-]. now apply truthy_nonempty.
Qed.

(** What the probe's status says of its error message and version, for
    the results on the components below. *)
Lemma checkControllerHealth_shape_aux
    (config : PluginConfig) (env : Env) (s : State) :
  exists st : ControllerHealthStatus,
    fst (checkControllerHealth config env s) = Returned (Ok st)
    /\ (error st = None -> healthy st = true)
    /\ (forall e, error st = Some e -> e <> "")
    /\ (forall v, version st = Some v -> v <> "").
Proof.
  unfold checkControllerHealth. run.
  cbn [ticks sent slept armed set_armed tick log_request].
  change HEALTH_TIMEOUT_MS with 5000.
  assert (Hhttp : forall a b, template [PStr "HTTP "; PNum a; PStr ": "; PStr b] <> "").
  { intros a b. autorewrite with template. cbn [ToString].
    destruct (append_literal_head "H" "TTP " (Number_toString a +:+ ": " +:+ b))
      as [t ->]. discriminate. }
  assert (Hmsg : forall e,
    (if String.eqb (name e) "AbortError" then TIMED_OUT_MESSAGE
     else if truthy (message e) then message e else UNREACHABLE_MESSAGE) <> "").
  { intros e. destruct (String.eqb (name e) "AbortError"); [discriminate|].
    destruct (truthy (message e)) eqn:E; [now apply truthy_nonempty | discriminate]. }
  assert (Hshape : forall h rc ver lat er,
    (er = None -> h = true) ->
    (forall e, er = Some e -> e <> "") ->
    (forall v, ver = Some v -> v <> "") ->
    exists st : ControllerHealthStatus,
      Returned (Ok (mkHealth h rc ver lat er))
      = (Returned (Ok st) : Completion (Result ControllerHealthStatus string))
      /\ (error st = None -> healthy st = true)
      /\ (forall e, error st = Some e -> e <> "")
      /\ (forall v, version st = Some v -> v <> "")).
  { intros. eexists. split; [reflexivity|]. cbn. auto. }
  destruct (network env (length (sent s))) as [after r|after msg|]; cbn.
  - destruct (after <? 5000); cbn; [destruct (ok r); cbn|];
      apply Hshape; try reflexivity; try discriminate.
    + intros v Hv. eapply or_undefined_nonempty. exact Hv.
    + intros e [= <-]. apply Hhttp.
    + intros e [= <-]. apply (Hmsg (AbortError (abort_message env))).
  - destruct (after <? 5000); cbn; apply Hshape;
      try reflexivity; try discriminate.
    + intros e [= <-]. apply (Hmsg (TypeError msg)).
    + intros e [= <-]. apply (Hmsg (AbortError (abort_message env))).
  - apply Hshape; try reflexivity; try discriminate.
    intros e [= <-]. apply (Hmsg (AbortError (abort_message env))).
Qed.

(** Every status the probe returns is well formed: healthy implies
    reachable; an error message is present exactly when the controller is
    not healthy, and it is never the empty string; a version is reported
    only with a healthy status, and is never the empty string; the latency
    is always present and is the difference of the two clock readings.  The
    probe sends exactly one request, the GET of /healthz under the 5000 ms
    timer, and sleeps never: there is no second attempt. *)
Theorem checkControllerHealth_status_shape
    (config : PluginConfig) (env : Env) (s : State) :
  exists st : ControllerHealthStatus,
    fst (checkControllerHealth config env s) = Returned (Ok st)
    /\ (healthy st = true -> reachable st = true)
    /\ (error st = None <-> healthy st = true)
    /\ (forall e, error st = Some e -> e <> "")
    /\ (forall v, version st = Some v -> healthy st = true /\ v <> "")
    /\ latencyMs st = Some (clock env (S (ticks s)) - clock env (ticks s))
    /\ sent (snd (checkControllerHealth config env s))
       = (sent s ++ [mkRequest "GET" (getControllerProxyURL config "/healthz")
                               (Some 5000)])%list
    /\ slept (snd (checkControllerHealth config env s)) = slept s.
Proof.
  unfold checkControllerHealth. run.
  cbn [ticks sent slept armed set_armed tick log_request].
  change HEALTH_TIMEOUT_MS with 5000.
  assert (Hhttp : forall a b, template [PStr "HTTP "; PNum a; PStr ": "; PStr b] <> "").
  { intros a b. autorewrite with template. cbn [ToString].
    destruct (append_literal_head "H" "TTP " (Number_toString a +:+ ": " +:+ b))
      as [t ->]. discriminate. }
  assert (Hmsg : forall e,
    (if String.eqb (name e) "AbortError" then TIMED_OUT_MESSAGE
     else if truthy (message e) then message e else UNREACHABLE_MESSAGE) <> "").
  { intros e. destruct (String.eqb (name e) "AbortError"); [discriminate|].
    destruct (truthy (message e)) eqn:E; [now apply truthy_nonempty | discriminate]. }
  assert (Hshape : forall h rc ver lat er sn sl,
    (h = true -> rc = true) ->
    (er = None <-> h = true) ->
    (forall e, er = Some e -> e <> "") ->
    (forall v, ver = Some v -> h = true /\ v <> "") ->
    lat = Some (clock env (S (ticks s)) - clock env (ticks s)) ->
    sn = (sent s ++ [mkRequest "GET" (getControllerProxyURL config "/healthz")
                               (Some 5000)])%list ->
    sl = slept s ->
    exists st : ControllerHealthStatus,
      Returned (Ok (mkHealth h rc ver lat er))
      = (Returned (Ok st) : Completion (Result ControllerHealthStatus string))
      /\ (healthy st = true -> reachable st = true)
      /\ (error st = None <-> healthy st = true)
      /\ (forall e, error st = Some e -> e <> "")
      /\ (forall v, version st = Some v -> healthy st = true /\ v <> "")
      /\ latencyMs st = Some (clock env (S (ticks s)) - clock env (ticks s))
      /\ sn = (sent s ++ [mkRequest "GET" (getControllerProxyURL config "/healthz")
                                   (Some 5000)])%list
      /\ sl = slept s).
  { intros. eexists. split; [reflexivity|]. cbn. auto 10. }
  destruct (network env (length (sent s))) as [after r|after msg|]; cbn.
  - destruct (after <? 5000); cbn; [destruct (ok r); cbn|]; apply Hshape;
      try reflexivity; try discriminate;
      try (split; discriminate); try (split; reflexivity).
    + intros v Hv. split; [reflexivity|]. eapply or_undefined_nonempty. exact Hv.
    + intros e [= <-]. apply Hhttp.
    + intros e [= <-]. apply (Hmsg (AbortError (abort_message env))).
  - destruct (after <? 5000); cbn; apply Hshape;
      try reflexivity; try discriminate;
      try (split; discriminate); try (split; reflexivity).
    + intros e [= <-]. apply (Hmsg (TypeError msg)).
    + intros e [= <-]. apply (Hmsg (AbortError (abort_message env))).
  - apply Hshape;
      try reflexivity; try discriminate;
      try (split; discriminate); try (split; reflexivity).
    intros e [= <-]. apply (Hmsg (AbortError (abort_message env))).
Qed.

(** One attempt at the certificate sends exactly one GET of /v1/cert.pem.
    It never throws; it stays pending exactly when the network never
    settles; every error it returns starts with
    "Unable to fetch controller certificate: "; and it succeeds only with
    the unchanged body of a 2xx answer. *)
Theorem fetchPublicCertificateOnce_shape
    (config : PluginConfig) (env : Env) (s : State) :
  let o := network env (length (sent s)) in
  let run := fetchPublicCertificateOnce config env s in
  snd run = log_request (certificate_request config) s
  /\ (fst run = Pending <-> o = Hangs)
  /\ (forall e, fst run <> Threw e)
  /\ (forall m, fst run = Returned (Err m) ->
        exists detail, m = "Unable to fetch controller certificate: " +:+ detail)
  /\ (forall pem, fst run = Returned (Ok pem) ->
        exists after r, o = Resolves after r /\ ok r = true /\ pem = text r).
Proof.
  cbv zeta. rewrite fetchPublicCertificateOnce_run. cbn [fst snd].
  destruct (network env (length (sent s))) as [after r|after msg|].
  - destruct (ok r) eqn:Hok; repeat apply conj; try reflexivity;
      try (split; discriminate); try discriminate.
    + intros pem [= <-]. eauto.
    + intros m [= <-]. eauto.
  - repeat apply conj; try reflexivity; try (split; discriminate); try discriminate.
    intros m [= <-]. eauto.
  - repeat apply conj; try reflexivity; try tauto; discriminate.
Qed.

End ProbeShape.

(** ** Proxy URLs of different controllers *)
Section ProxyURLInjective.
Import Controller ControllerOps.

Lemma occurs_append (c : ascii) (a b : string) :
  occurs c (a +:+ b) = occurs c a || occurs c b.
Proof.
  induction a as [|x a IH]; [reflexivity|].
  rewrite append_cons. cbn [occurs]. rewrite IH. now rewrite orb_assoc.
Qed.

(** A string is cut at the first occurrence of a character in one way only. *)
Lemma cut_unique (c : ascii) (a b x y : string) :
  occurs c a = false -> occurs c b = false ->
  a +:+ String c x = b +:+ String c y -> a = b /\ x = y.
Proof.
  revert b. induction a as [|p a IH]; intros [|q b] Ha Hb E.
  - cbn in E. now injection E.
  - rewrite append_cons in E. injection E as <- _.
    cbn [occurs] in Hb. now rewrite Ascii.eqb_refl in Hb.
  - rewrite append_cons in E. injection E as -> _.
    cbn [occurs] in Ha. now rewrite Ascii.eqb_refl in Ha.
  - rewrite !append_cons in E. injection E as -> E.
    cbn [occurs] in Ha, Hb.
    apply orb_false_elim in Ha as [_ Ha]. apply orb_false_elim in Hb as [_ Hb].
    destruct (IH b Ha Hb E) as [-> ->]. now split.
Qed.

Lemma pretty_N_char_not_slash (x : N) : Ascii.eqb (pretty_N_char x) "/" = false.
Proof. unfold pretty_N_char. repeat case_match; reflexivity. Qed.

Lemma pretty_N_go_no_slash (x : N) (s : string) :
  occurs "/" s = false -> occurs "/" (pretty_N_go x s) = false.
Proof.
  revert s. induction (N.lt_wf_0 x) as [x _ IH]; intros s Hs.
  assert (x = 0 \/ 0 < x)%N as [->|Hx] by lia.
  - now rewrite pretty_N_go_0.
  - rewrite pretty_N_go_step by done. apply IH.
    + now apply N.div_lt.
    + cbn [occurs]. now rewrite pretty_N_char_not_slash, Hs.
Qed.

Lemma pretty_N_no_slash (x : N) : occurs "/" (pretty x) = false.
Proof.
  unfold pretty, pretty_N. case_decide; [reflexivity|].
  now apply pretty_N_go_no_slash.
Qed.

(** The decimal digits of a port contain no slash. *)
Lemma Number_toString_no_slash (n : Z) : occurs "/" (Number_toString n) = false.
Proof.
  unfold Number_toString, pretty, pretty_Z. destruct n as [|p|p].
  - reflexivity.
  - apply (pretty_N_no_slash (Npos p)).
  - rewrite occurs_append. cbn [occurs orb].
    change (Ascii.eqb "-" "/") with false. cbn [orb].
    apply (pretty_N_no_slash (Npos p)).
Qed.

(** Nothing is escaped when the URL is built, yet for names of the kind
    Kubernetes allows the URL tells everything: if the namespaces contain no
    slash and the service names no colon, two calls give the same URL only
    for the same configuration and the same path. *)
Theorem getControllerProxyURL_injective
    (c1 c2 : PluginConfig) (p1 p2 : string) :
  occurs "/" (controllerNamespace c1) = false ->
  occurs "/" (controllerNamespace c2) = false ->
  occurs ":" (controllerName c1) = false ->
  occurs ":" (controllerName c2) = false ->
  getControllerProxyURL c1 p1 = getControllerProxyURL c2 p2 ->
  c1 = c2 /\ p1 = p2.
Proof.
  intros Hn1 Hn2 Hs1 Hs2 E.
  unfold getControllerProxyURL in E. autorewrite with template in E.
  cbn [ToString] in E.
  apply String.app_inj in E.
  change ("/services/http:" +:+ ?x) with (String "/" ("services/http:" +:+ x)) in E.
  destruct c1 as [name1 ns1 port1], c2 as [name2 ns2 port2].
  cbn [controllerNamespace controllerName controllerPort] in *.
  change ("/services/http:" +:+ name1 +:+ ":" +:+ Number_toString port1 +:+ "/proxy" +:+ p1)
    with (String "/" ("services/http:" +:+ name1 +:+ ":" +:+ Number_toString port1
                      +:+ "/proxy" +:+ p1)) in E.
  change ("/services/http:" +:+ name2 +:+ ":" +:+ Number_toString port2 +:+ "/proxy" +:+ p2)
    with (String "/" ("services/http:" +:+ name2 +:+ ":" +:+ Number_toString port2
                      +:+ "/proxy" +:+ p2)) in E.
  destruct (cut_unique "/" _ _ _ _ Hn1 Hn2 E) as [-> E1].
  apply String.app_inj in E1.
  change (":" +:+ Number_toString port1 +:+ "/proxy" +:+ p1)
    with (String ":" (Number_toString port1 +:+ "/proxy" +:+ p1)) in E1.
  change (":" +:+ Number_toString port2 +:+ "/proxy" +:+ p2)
    with (String ":" (Number_toString port2 +:+ "/proxy" +:+ p2)) in E1.
  destruct (cut_unique ":" _ _ _ _ Hs1 Hs2 E1) as [-> E2].
  change ("/proxy" +:+ p1) with (String "/" ("proxy" +:+ p1)) in E2.
  change ("/proxy" +:+ p2) with (String "/" ("proxy" +:+ p2)) in E2.
  destruct (cut_unique "/" _ _ _ _ (Number_toString_no_slash port1)
              (Number_toString_no_slash port2) E2) as [E3 E4].
  apply String.app_inj in E4. apply (inj pretty) in E3.
  now subst.
Qed.

Lemma getControllerProxyURL_injective_witness :
  default_config = default_config /\ "/healthz" = "/healthz".
Proof.
  exact (getControllerProxyURL_injective default_config default_config
           "/healthz" "/healthz" eq_refl eq_refl eq_refl eq_refl eq_refl).
Defined.

End ProxyURLInjective.

(** ** Detection: failures and the cache *)
Section DetectionFailures.
Import SealedSecretCRD.

(** What the detection proper can do to the runtime state: it logs the one
    request, and it either leaves the cache alone or fills it with the
    version "group/name" that it returns. *)
Lemma detect_from_cluster_cases env s :
  let run := detect_from_cluster env s in
  let s1 := log_request definition_request s in
  (snd run = s1
   /\ ((exists m, fst run = Returned (Err m))
       \/ fst run = Returned (Ok DEFAULT_VERSION)
       \/ (fst run = Pending /\ network env (length (sent s)) = Hangs)))
  \/ (exists g n,
        fst run = Returned (Ok (g +:+ "/" +:+ n))
        /\ snd run = set_detectedVersion (Some (g +:+ "/" +:+ n)) s1).
Proof.
  cbv zeta.
  unfold detect_from_cluster, query_definition, version_string, put_detectedVersion.
  run. fold definition_request.
  destruct (network env (length (sent s))) as [after r|after msg|];
    [|left; split; [reflexivity|left; eauto]
     |left; split; [reflexivity|right; right; split; reflexivity]].
  destruct (ok r); cbn [negb].
  2:{ destruct (status r =? 404); left; (split; [reflexivity|left; eauto]). }
  destruct (json r) as [e|crd]; [left; split; [reflexivity|left; eauto]|].
  destruct (find_version storage crd) as [v|].
  { destruct (spec crd) as [sp|]; [|left; split; [reflexivity|left; eauto]].
    right. exists (group sp), (vname v). cbn [fst snd].
    autorewrite with template. split; reflexivity. }
  destruct (find_version served crd) as [v|];
    [|left; split; [reflexivity|right; left; reflexivity]].
  destruct (spec crd) as [sp|]; [|left; split; [reflexivity|left; eauto]].
  right. exists (group sp), (vname v). cbn [fst snd].
  autorewrite with template. split; reflexivity.
Qed.

(** [detectApiVersion] never throws: whatever goes wrong inside comes back
    as [Err].  A call that does not succeed leaves the cache exactly as it
    found it, so a failure is never remembered; it stays pending only when
    the cache is unresolved and the network never settles.  No call sends
    more than one request. *)
Theorem detectApiVersion_failure_keeps_cache (env : Env) (s : State) :
  let run := detectApiVersion env s in
  (forall e, fst run <> Threw e)
  /\ ((forall v, fst run <> Returned (Ok v)) ->
        detectedVersion (snd run) = detectedVersion s)
  /\ (fst run = Pending ->
        cache_state s = Unresolved /\ network env (length (sent s)) = Hangs)
  /\ (sent (snd run) = sent s
      \/ sent (snd run) = (sent s ++ [definition_request])%list).
Proof.
  cbv zeta. destruct (cache_state s) as [|v] eqn:Hc.
  - rewrite (detectApiVersion_uncached env s Hc).
    destruct (detect_from_cluster_cases env s)
      as [[Hs [[m Hm]|[Hd|[Hp Hh]]]]|[g [n [Hr Hs]]]]; rewrite Hs.
    + rewrite Hm. cbn [fst snd]. repeat apply conj.
      * discriminate.
      * reflexivity.
      * discriminate.
      * now right.
    + rewrite Hd. cbn [fst snd]. repeat apply conj.
      * discriminate.
      * reflexivity.
      * discriminate.
      * now right.
    + rewrite Hp. cbn [fst snd]. repeat apply conj.
      * discriminate.
      * reflexivity.
      * intros _. now split.
      * now right.
    + rewrite Hr. cbn [fst snd]. repeat apply conj.
      * discriminate.
      * intros H. exfalso. now apply (H (g +:+ "/" +:+ n)).
      * discriminate.
      * now right.
  - rewrite (detectApiVersion_cached env s v Hc). cbn [fst snd].
    repeat apply conj.
    + discriminate.
    + reflexivity.
    + discriminate.
    + now left.
Qed.

(** A version that the detection proper leaves in the cache was there
    before, or is declared by the answer to its query. *)
Lemma detect_from_cluster_declared env s v :
  detectedVersion (snd (detect_from_cluster env s)) = Some v ->
  detectedVersion s = Some v
  \/ exists after r,
       network env (length (sent s)) = Resolves after r
       /\ Resource.declares r v = true.
Proof.
  assert (Hfound : forall p crd sp ver,
    (forall x, p x = true -> storage x || served x = true) ->
    spec crd = Some sp -> find_version p crd = Some ver ->
    existsb (fun x => (storage x || served x)
                      && String.eqb (group sp +:+ "/" +:+ vname ver)
                                    (group sp +:+ "/" +:+ vname x))
      (declared_versions crd) = true).
  { intros p crd sp ver Hp Hsp Hfind. rewrite find_version_declared in Hfind.
    apply find_some in Hfind. destruct Hfind as [Hin Hpv].
    apply existsb_exists. exists ver. split; [exact Hin|].
    rewrite (Hp ver Hpv). apply String.eqb_refl. }
  destruct (network env (length (sent s))) as [after r|after msg|] eqn:Hnet.
  2,3: (unfold detect_from_cluster, query_definition; run; rewrite Hnet;
        cbn [snd detectedVersion log_request]; now left).
  destruct (ok r) eqn:Hok.
  2:{ unfold detect_from_cluster, query_definition. run. rewrite Hnet, Hok.
      cbn [negb]. destruct (status r =? 404);
        cbn [snd detectedVersion log_request]; now left. }
  destruct (json r) as [e|crd] eqn:Hjson.
  { unfold detect_from_cluster, query_definition. run. rewrite Hnet, Hok.
    cbn [negb]. rewrite Hjson. cbn [snd detectedVersion log_request]. now left. }
  rewrite (detect_from_cluster_answer env s after r crd Hnet Hok Hjson).
  cbv zeta. rewrite <- !find_version_declared.
  assert (Hdecl : forall p sp ver,
    (forall x, p x = true -> storage x || served x = true) ->
    spec crd = Some sp -> find_version p crd = Some ver ->
    Resource.declares r (group sp +:+ "/" +:+ vname ver) = true).
  { intros p sp ver Hp Hsp Hfind. unfold Resource.declares.
    rewrite Hok, Hjson, Hsp. cbn [andb].
    exact (Hfound p crd sp ver Hp Hsp Hfind). }
  destruct (find_version storage crd) as [ver|] eqn:Hst.
  { destruct (spec crd) as [sp|] eqn:Hsp; cbn [snd]; [|now left].
    cbn [detectedVersion set_detectedVersion]. intros [= <-]. right.
    exists after, r. split; [reflexivity|].
    apply (Hdecl storage sp ver); [|reflexivity|exact Hst].
    intros x ->. reflexivity. }
  destruct (find_version served crd) as [ver|] eqn:Hsv.
  { destruct (spec crd) as [sp|] eqn:Hsp; cbn [snd]; [|now left].
    cbn [detectedVersion set_detectedVersion]. intros [= <-]. right.
    exists after, r. split; [reflexivity|].
    apply (Hdecl served sp ver); [|reflexivity|exact Hsv].
    intros x ->. apply orb_true_r. }
  destruct (spec crd); cbn [snd]; now left.
Qed.

(** Where a cached version comes from.  In every state of a run, a version
    held by the cache is declared, under the [storage] or the [served]
    flag, by a definition that the cluster returned with a 2xx status to
    some query: nothing else is ever written to the cache.  So the default
    version that a detection falls back to is not cached (with definitions
    that declare no version the cache stays empty), and neither is an error
    message (without a 2xx answer the cache stays empty). *)
Theorem cache_provenance (env : Env) (s : State) :
  Reachable env s ->
  (forall v, detectedVersion s = Some v ->
     exists i after r,
       network env i = Resolves after r /\ Resource.declares r v = true)
  /\ ((forall i after r crd,
         network env i = Resolves after r -> json r = inr crd ->
         declared_versions crd = []) ->
      detectedVersion s = None)
  /\ ((forall i after r, network env i = Resolves after r -> ok r = false) ->
      detectedVersion s = None).
Proof.
  intros Hreach.
  assert (Hprov : forall v, detectedVersion s = Some v ->
     exists i after r,
       network env i = Resolves after r /\ Resource.declares r v = true).
  { induction Hreach as [s Hs|s s' _ IH Hstep]; intros v Hv.
    - rewrite Hs in Hv. discriminate.
    - destruct Hstep as [s c s' Hrun|s c s' Hrun|s s' Hsame].
      + destruct (cache_state s) as [|w] eqn:Hc.
        * rewrite (detectApiVersion_uncached env s Hc) in Hrun.
          assert (Hs' : s' = snd (detect_from_cluster env s)) by now rewrite Hrun.
          subst s'.
          destruct (detect_from_cluster_declared env s v Hv)
            as [Hold|[after [r [Hnet Hdecl]]]]; [now apply IH|eauto].
        * rewrite (detectApiVersion_cached env s w Hc) in Hrun.
          injection Hrun as _ <-. now apply IH.
      + injection Hrun as _ <-. discriminate.
      + apply IH. now rewrite <- Hsame. }
  split; [exact Hprov|]. split.
  - intros Hnone. destruct (detectedVersion s) as [v|] eqn:Hv; [|reflexivity].
    destruct (Hprov v eq_refl) as [i [after [r [Hnet Hdecl]]]]. exfalso.
    unfold Resource.declares in Hdecl.
    destruct (ok r); [|discriminate]. cbn [andb] in Hdecl.
    destruct (json r) as [e|crd] eqn:Hjson; [discriminate|].
    rewrite (Hnone i after r crd Hnet Hjson) in Hdecl.
    destruct (spec crd); discriminate.
  - intros Hbad. destruct (detectedVersion s) as [v|] eqn:Hv; [|reflexivity].
    destruct (Hprov v eq_refl) as [i [after [r [Hnet Hdecl]]]]. exfalso.
    unfold Resource.declares in Hdecl. rewrite (Hbad i after r Hnet) in Hdecl.
    discriminate.
Qed.

End DetectionFailures.

Section DetectionFailuresWitness.
Import SealedSecretCRD Samples.

Lemma detectApiVersion_failure_keeps_cache_witness :
  detectedVersion
    (snd (detectApiVersion (constant_env (Resolves 9 forbidden_response)) initial_state))
  = None.
Proof.
  apply (proj1 (proj2 (detectApiVersion_failure_keeps_cache
           (constant_env (Resolves 9 forbidden_response)) initial_state))).
  intros v. discriminate.
Defined.

Lemma cache_provenance_witness :
  let env := constant_env (Resolves 5 (definition_response crd_no_versions)) in
  fst (detectApiVersion env initial_state) = Returned (Ok DEFAULT_VERSION)
  /\ detectedVersion (snd (detectApiVersion env initial_state)) = None.
Proof.
  cbv zeta. split; [reflexivity|].
  apply (proj1 (proj2 (cache_provenance
           (constant_env (Resolves 5 (definition_response crd_no_versions)))
           (snd (detectApiVersion
                   (constant_env (Resolves 5 (definition_response crd_no_versions)))
                   initial_state))
           (reach_step _ initial_state _
              (reach_init _ initial_state eq_refl)
              (step_detect _ _ _ _ (surjective_pairing _)))))).
  intros i after r crd [= <- <-] [= <-]. reflexivity.
Defined.

End DetectionFailuresWitness.

(** ** The API endpoint *)
Section ApiEndpoint.
Import SealedSecretCRD Resource ControllerOps.

(** How a detection ends. *)
Lemma detectApiVersion_ends env s :
  (exists v, fst (detectApiVersion env s) = Returned (Ok v))
  \/ (exists m, fst (detectApiVersion env s) = Returned (Err m))
  \/ (fst (detectApiVersion env s) = Pending
      /\ cache_state s = Unresolved /\ network env (length (sent s)) = Hangs).
Proof.
  destruct (cache_state s) as [|v] eqn:Hc.
  - rewrite (detectApiVersion_uncached env s Hc).
    destruct (detect_from_cluster_cases env s)
      as [[_ [[m Hm]|[Hd|[Hp Hh]]]]|[g [n [Hr _]]]]; eauto 6.
  - rewrite (detectApiVersion_cached env s v Hc). eauto.
Qed.

Lemma getApiEndpoint_run env s :
  getApiEndpoint env s =
    (match fst (detectApiVersion env s) with
     | Returned (Ok value) =>
         Returned (apiFactoryWithNamespace (fst (split "/" value))
                     (head (snd (split "/" value))) "sealedsecrets")
     | Returned (Err _) => Returned apiEndpoint
     | Threw e => Threw e
     | Pending => Pending
     end, snd (detectApiVersion env s)).
Proof.
  unfold getApiEndpoint. run.
  destruct (detectApiVersion env s) as [[[v|m]|e|] s']; cbn [fst snd];
    try reflexivity.
  destruct (split "/" v) as [g others]. reflexivity.
Qed.

Lemma split_without_separator (c : ascii) (a : string) :
  occurs c a = false -> split c a = (a, []).
Proof.
  induction a as [|x a IH]; [reflexivity|].
  cbn [occurs split]. intros H. apply orb_false_elim in H as [Hx Ha].
  now rewrite (IH Ha), Hx.
Qed.

(** Splitting puts the text before the first separator first. *)
Lemma split_at_first (c : ascii) (a b : string) :
  occurs c a = false ->
  split c (a +:+ String c b) = (a, fst (split c b) :: snd (split c b)).
Proof.
  induction a as [|x a IH]; intros H.
  - change ("" +:+ String c b) with (String c b).
    cbn [split]. rewrite Ascii.eqb_refl.
    now destruct (split c b).
  - cbn [occurs] in H. apply orb_false_elim in H as [Hx Ha].
    rewrite append_cons. cbn [split]. now rewrite (IH Ha), Hx.
Qed.

(** [getApiEndpoint] cannot fail.  It never throws; it changes the runtime
    state exactly as the detection it runs does; when the detection fails,
    whatever the reason, it returns the static endpoint bitnami.com /
    v1alpha1 / sealedsecrets, and the default version a detection may fall
    back to gives that same endpoint; it stays pending only when the cache
    is unresolved and the network never settles. *)
Theorem getApiEndpoint_falls_back (env : Env) (s : State) :
  let run := getApiEndpoint env s in
  snd run = snd (detectApiVersion env s)
  /\ (forall e, fst run <> Threw e)
  /\ (forall m, fst (detectApiVersion env s) = Returned (Err m) ->
        fst run = Returned apiEndpoint)
  /\ (fst (detectApiVersion env s) = Returned (Ok DEFAULT_VERSION) ->
        fst run = Returned apiEndpoint)
  /\ (fst run = Pending ->
        cache_state s = Unresolved /\ network env (length (sent s)) = Hangs).
Proof.
  cbv zeta. rewrite getApiEndpoint_run. cbn [fst snd].
  split; [reflexivity|].
  destruct (detectApiVersion_ends env s) as [[v Hv]|[[m Hm]|[Hp Hh]]].
  - rewrite Hv. repeat apply conj; try discriminate.
    intros [= ->]. reflexivity.
  - rewrite Hm. repeat apply conj; try discriminate. reflexivity.
  - rewrite Hp. repeat apply conj; try discriminate. intros _. exact Hh.
Qed.

(** The endpoint is read back from the version string by cutting it at the
    slash: when the detection gives "group/name" and neither part contains a
    slash, the endpoint is for that group and that version. *)
Theorem getApiEndpoint_of_detected (env : Env) (s : State) (g n : string) :
  fst (detectApiVersion env s) = Returned (Ok (g +:+ "/" +:+ n)) ->
  occurs "/" g = false -> occurs "/" n = false ->
  getApiEndpoint env s
  = (Returned (apiFactoryWithNamespace g (Some n) "sealedsecrets"),
     snd (detectApiVersion env s)).
Proof.
  intros Hdet Hg Hn. rewrite getApiEndpoint_run, Hdet.
  change (g +:+ "/" +:+ n) with (g +:+ String "/" n).
  rewrite (split_at_first "/" g n Hg), (split_without_separator "/" n Hn).
  reflexivity.
Qed.

End ApiEndpoint.

Section ApiEndpointWitness.
Import SealedSecretCRD Resource Samples.

Lemma getApiEndpoint_falls_back_witness :
  fst (getApiEndpoint (constant_env (Resolves 9 not_found_response)) initial_state)
  = Returned apiEndpoint.
Proof.
  apply (proj1 (proj2 (proj2 (getApiEndpoint_falls_back
           (constant_env (Resolves 9 not_found_response)) initial_state)))
         CRD_NOT_FOUND_MESSAGE).
  reflexivity.
Defined.

Lemma getApiEndpoint_of_detected_witness :
  fst (getApiEndpoint (constant_env (Resolves 5 (definition_response crd_migrating)))
         initial_state)
  = Returned (apiFactoryWithNamespace "bitnami.com" (Some "v1beta1") "sealedsecrets").
Proof.
  rewrite (getApiEndpoint_of_detected
             (constant_env (Resolves 5 (definition_response crd_migrating)))
             initial_state "bitnami.com" "v1beta1" eq_refl eq_refl eq_refl).
  reflexivity.
Defined.

End ApiEndpointWitness.

(** ** The sync status *)
Section SyncStatus.
Import Resource.

(** Only the first condition of type "Synced" counts.  With the conditions
    [before ++ c :: rest], where [c] is the first one of that type, the
    resource is synced exactly when the status of [c] is the string "True",
    whatever the conditions in [rest] say, later "Synced" ones included. *)
Theorem isSynced_first_condition
    (this : SealedSecretObject) (st : SealedSecretStatus)
    (before : list Condition) (c : Condition) (rest : list Condition) :
  status this = Some st ->
  conditions st = Some (before ++ c :: rest)%list ->
  ctype c = "Synced" ->
  Forall (fun x => ctype x <> "Synced") before ->
  syncCondition this = Some c
  /\ (isSynced this = true <-> cstatus c = "True").
Proof.
  intros Hst Hcs Hc Hbefore.
  assert (Hfind : syncCondition this = Some c).
  { unfold syncCondition. rewrite Hst, Hcs.
    apply (find_first (fun x => String.eqb (ctype x) "Synced")).
    - now apply String.eqb_eq.
    - eapply Forall_impl; [exact Hbefore|].
      intros x Hx. now apply String.eqb_neq. }
  split; [exact Hfind|].
  unfold isSynced. rewrite Hfind. apply String.eqb_eq.
Qed.

Lemma or_else_blank (a : option string) (b : string) :
  or_else a b = "" -> b = "".
Proof.
  unfold or_else. destruct (or_undefined a) as [v|] eqn:E; [|tauto].
  intros ->. exfalso. exact (or_undefined_nonempty a "" E eq_refl).
Qed.

(** The sync message is "Unknown" for a resource without a "Synced"
    condition, and such a resource is not synced.  Otherwise the message is
    never blank unless the condition has a blank status on top of no
    message and no reason: in particular a synced resource always has a
    message to show, at the very least "True". *)
Theorem syncMessage_never_blank (this : SealedSecretObject) :
  (syncCondition this = None ->
     syncMessage this = "Unknown" /\ isSynced this = false)
  /\ (syncMessage this = "" ->
        exists c, syncCondition this = Some c /\ cstatus c = ""
                  /\ Js.or_undefined (cmessage c) = None
                  /\ Js.or_undefined (creason c) = None)
  /\ (isSynced this = true -> syncMessage this <> "").
Proof.
  unfold syncMessage, isSynced.
  destruct (syncCondition this) as [c|]; repeat apply conj.
  - discriminate.
  - intros H. exists c. split; [reflexivity|].
    pose proof (or_else_blank _ _ H) as H1.
    pose proof (or_else_blank _ _ H1) as H2.
    split; [exact H2|].
    unfold or_else in H, H1.
    destruct (Js.or_undefined (cmessage c)) as [m|] eqn:Em.
    { subst m. exfalso. exact (or_undefined_nonempty _ "" Em eq_refl). }
    destruct (Js.or_undefined (creason c)) as [r|] eqn:Er.
    { subst r. exfalso. exact (or_undefined_nonempty _ "" Er eq_refl). }
    now split.
  - intros Hs Hblank. apply String.eqb_eq in Hs.
    pose proof (or_else_blank _ _ (or_else_blank _ _ Hblank)) as H2.
    rewrite Hs in H2. discriminate.
  - intros _. now split.
  - discriminate.
  - discriminate.
Qed.

End SyncStatus.

Section SyncStatusWitness.
Import Resource Samples MoreSamples.

Lemma isSynced_first_condition_witness :
  syncCondition (object_with (Some [other_condition; failed_condition; synced_condition]))
    = Some failed_condition
  /\ isSynced (object_with (Some [other_condition; failed_condition; synced_condition]))
     = false.
Proof.
  destruct (isSynced_first_condition
              (object_with (Some [other_condition; failed_condition; synced_condition]))
              {| conditions := Some [other_condition; failed_condition; synced_condition] |}
              [other_condition] failed_condition [synced_condition]
              eq_refl eq_refl eq_refl
              ltac:(repeat constructor; discriminate)) as [Hc Hs].
  split; [exact Hc|].
  destruct (isSynced _); [|reflexivity].
  destruct Hs as [Hs _]. specialize (Hs eq_refl). discriminate Hs.
Defined.

Lemma syncMessage_never_blank_witness :
  syncMessage (object_with (Some [other_condition; synced_condition])) <> ""
  /\ syncMessage (object_with None) = "Unknown".
Proof.
  split.
  - apply (proj2 (proj2 (syncMessage_never_blank
             (object_with (Some [other_condition; synced_condition]))))).
    reflexivity.
  - apply (proj1 (syncMessage_never_blank (object_with None))). reflexivity.
Defined.

End SyncStatusWitness.

(** ** The version warning *)
Section VersionWarning.
Import SealedSecretCRD Components.

Lemma detectVersion_run st env s :
  detectVersion st env s =
    (match fst (detectApiVersion env s) with
     | Returned (Ok v) =>
         Returned {| loading := false; detectedVersion := Some v; error := None |}
     | Returned (Err m) =>
         Returned {| loading := false; detectedVersion := None; error := Some m |}
     | Threw e =>
         Returned {| loading := false; detectedVersion := None;
                     error := Some (message e) |}
     | Pending => Pending
     end, snd (detectApiVersion env s)).
Proof.
  unfold detectVersion. run.
  destruct (detectApiVersion env s) as [[[v|m]|e|] s']; reflexivity.
Qed.

(** A version that a detection returns is never the empty string. *)
Lemma detectApiVersion_ok_nonempty env s v :
  fst (detectApiVersion env s) = Returned (Ok v) -> truthy v = true.
Proof.
  destruct (cache_state s) as [|w] eqn:Hc.
  - rewrite (detectApiVersion_uncached env s Hc).
    destruct (detect_from_cluster_cases env s)
      as [[_ [[m Hm]|[Hd|[Hp Hh]]]]|[g [n [Hr _]]]].
    + rewrite Hm. discriminate.
    + rewrite Hd. now intros [= <-].
    + rewrite Hp. discriminate.
    + rewrite Hr. intros [= <-]. apply version_string_truthy.
  - rewrite (detectApiVersion_cached env s w Hc). cbn [fst]. intros [= <-].
    unfold cache_state in Hc.
    destruct (Runtime.detectedVersion s) as [x|]; [|discriminate].
    destruct (truthy x) eqn:E; [|discriminate]. now injection Hc as <-.
Qed.

(** What a 404 answer to the definition query makes of a detection. *)
Lemma detectApiVersion_404 env s after r :
  cache_state s = Unresolved ->
  network env (length (sent s)) = Resolves after r -> status r = 404 ->
  fst (detectApiVersion env s) = Returned (Err CRD_NOT_FOUND_MESSAGE).
Proof.
  intros Hc Hnet H404. rewrite (detectApiVersion_uncached env s Hc).
  unfold detect_from_cluster, query_definition. run.
  rewrite Hnet. unfold ok. rewrite H404. reflexivity.
Qed.

(** What the user sees once the component is mounted.  With [autoDetect]
    off nothing is ever shown and the cluster is not queried: the component
    stays in its loading state.  With [autoDetect] on, the mount effect
    never throws, changes the runtime state as the detection does, and
    settles exactly when the detection does (it stays pending only with an
    unresolved cache on a network that never answers).  When the detection
    returns, the effect returns too, and the state it leaves is rendered as
    follows: a version other than the default gives the information banner;
    the default version gives the success banner if details were asked for
    and nothing otherwise; a failure with a message gives the error banner,
    with the install instructions exactly when the message contains
    "not found"; and a failure whose message is empty shows nothing. *)
Theorem VersionWarning_banner (props : VersionWarningProps) (env : Env) (s : State) :
  let detection := fst (detectApiVersion env s) in
  let mount := VersionWarning_mount props env s in
  let shows (b : Banner) :=
    exists st, fst mount = Returned st /\ VersionWarning_render props st = b in
  (autoDetect props = false ->
     mount = (Returned VersionWarning_initial, s)
     /\ VersionWarning_render props VersionWarning_initial = NoBanner)
  /\ (autoDetect props = true ->
      snd mount = snd (detectApiVersion env s)
      /\ (forall e, fst mount <> Threw e)
      /\ (fst mount = Pending <-> detection = Pending)
      /\ (fst mount = Pending ->
            cache_state s = Unresolved /\ network env (length (sent s)) = Hangs)
      /\ (forall v, detection = Returned (Ok v) -> v <> DEFAULT_VERSION ->
            shows (InfoBanner v (showDetails props)))
      /\ (detection = Returned (Ok DEFAULT_VERSION) ->
            shows (if showDetails props then SuccessBanner DEFAULT_VERSION
                   else NoBanner))
      /\ (forall m, detection = Returned (Err m) -> m <> "" ->
            shows (ErrorBanner m (includes "not found" m)))
      /\ (detection = Returned (Err "") -> shows NoBanner)).
Proof.
  cbv beta zeta. unfold VersionWarning_mount. split.
  - intros ->. split; reflexivity.
  - intros ->. rewrite detectVersion_run. cbn [fst snd].
    split; [reflexivity|].
    destruct (detectApiVersion_ends env s)
      as [[v Hv]|[[m Hm]|[Hp [Hc Hnet]]]].
    + rewrite Hv.
      split; [discriminate|]. split; [split; discriminate|].
      split; [discriminate|]. split; [|split; [|split; discriminate]].
      * intros w [= <-] Hne. eexists. split; [reflexivity|].
        unfold VersionWarning_render.
        cbn [loading error detectedVersion or_undefined].
        rewrite (detectApiVersion_ok_nonempty env s v Hv).
        apply String.eqb_neq in Hne. now rewrite Hne.
      * intros [= ->]. eexists. split; reflexivity.
    + rewrite Hm.
      split; [discriminate|]. split; [split; discriminate|].
      split; [discriminate|]. split; [discriminate|]. split; [discriminate|].
      split.
      * intros w [= <-] Hne. eexists. split; [reflexivity|].
        unfold VersionWarning_render.
        cbn [loading error detectedVersion or_undefined].
        destruct m; [contradiction|reflexivity].
      * intros [= ->]. eexists. split; reflexivity.
    + rewrite Hp.
      split; [discriminate|]. split; [tauto|].
      split; [intros _; split; assumption|].
      repeat split; discriminate.
Qed.

(** When the custom resource definition is missing (the query gets a 404),
    the mounted component shows the error banner with the dedicated message
    and the install instructions. *)
Theorem VersionWarning_not_installed
    (props : VersionWarningProps) (env : Env) (s : State) (after : Z) (r : Response) :
  autoDetect props = true ->
  cache_state s = Unresolved ->
  network env (length (sent s)) = Resolves after r -> status r = 404 ->
  exists st, fst (VersionWarning_mount props env s) = Returned st
    /\ VersionWarning_render props st
       = ErrorBanner "SealedSecrets CRD not found. Please install Sealed Secrets on the cluster."
           true.
Proof.
  intros Hauto Hc Hnet H404. unfold VersionWarning_mount. rewrite Hauto.
  rewrite detectVersion_run, (detectApiVersion_404 env s after r Hc Hnet H404).
  eexists. split; reflexivity.
Qed.

(** A failed detection is not remembered, so the Retry button works: after
    a detection that failed from an unresolved cache, the cache is still
    unresolved, and the next run of the callback sends the definition query
    once more and reports what that second query finds. *)
Theorem VersionWarning_retry
    (st st' : VersionWarningState) (env : Env) (s : State) (m : string) :
  cache_state s = Unresolved ->
  fst (detectApiVersion env s) = Returned (Err m) ->
  let s1 := snd (detectVersion st env s) in
  cache_state s1 = Unresolved
  /\ sent (snd (detectVersion st' env s1))
     = (sent s ++ [definition_request; definition_request])%list
  /\ detectVersion st' env s1
     = detectVersion VersionWarning_initial env (log_request definition_request s).
Proof.
  intros Hc Hm s1. subst s1. rewrite !detectVersion_run. cbn [snd].
  assert (Hs1 : snd (detectApiVersion env s) = log_request definition_request s).
  { rewrite (detectApiVersion_uncached env s Hc) in *.
    destruct (detect_from_cluster_cases env s) as [[Hs _]|[g [n [Hr _]]]];
      [exact Hs|]. rewrite Hr in Hm. discriminate. }
  rewrite Hs1.
  assert (Hc1 : cache_state (log_request definition_request s) = Unresolved)
    by exact Hc.
  repeat apply conj.
  - exact Hc1.
  - rewrite (detectApiVersion_uncached env _ Hc1), detect_from_cluster_request.
    cbn [sent log_request]. now rewrite <- app_assoc.
  - reflexivity.
Qed.

End VersionWarning.

Section VersionWarningWitness.
Import SealedSecretCRD Components Samples MoreSamples.

Lemma VersionWarning_banner_witness :
  exists st,
    fst (VersionWarning_mount (mkVWProps true false)
           (constant_env (Resolves 5 (definition_response crd_migrating)))
           initial_state) = Returned st
    /\ VersionWarning_render (mkVWProps true false) st
       = InfoBanner "bitnami.com/v1beta1" false.
Proof.
  apply (proj1 (proj2 (proj2 (proj2 (proj2
           (proj2 (VersionWarning_banner (mkVWProps true false)
                     (constant_env (Resolves 5 (definition_response crd_migrating)))
                     initial_state) eq_refl)))))
           "bitnami.com/v1beta1" eq_refl).
  discriminate.
Defined.

Lemma VersionWarning_not_installed_witness :
  exists st,
    fst (VersionWarning_mount (mkVWProps true false)
           (constant_env (Resolves 9 not_found_response)) initial_state) = Returned st
    /\ VersionWarning_render (mkVWProps true false) st
       = ErrorBanner "SealedSecrets CRD not found. Please install Sealed Secrets on the cluster."
           true.
Proof.
  exact (VersionWarning_not_installed (mkVWProps true false)
           (constant_env (Resolves 9 not_found_response)) initial_state
           9 not_found_response eq_refl eq_refl eq_refl eq_refl).
Defined.

Lemma VersionWarning_retry_witness :
  let s1 := snd (detectVersion VersionWarning_initial installed_later initial_state) in
  fst (detectVersion VersionWarning_initial installed_later initial_state)
    = Returned {| loading := false; detectedVersion := None;
                  error := Some CRD_NOT_FOUND_MESSAGE |}
  /\ sent (snd (detectVersion VersionWarning_initial installed_later s1))
     = [definition_request; definition_request]
  /\ fst (detectVersion VersionWarning_initial installed_later s1)
     = Returned {| loading := false; detectedVersion := Some "bitnami.com/v1beta1";
                   error := None |}.
Proof.
  cbv zeta.
  destruct (VersionWarning_retry VersionWarning_initial VersionWarning_initial
              installed_later initial_state CRD_NOT_FOUND_MESSAGE eq_refl eq_refl)
    as [_ [Hsent Hsame]].
  split; [reflexivity|]. split; [exact Hsent|].
  rewrite Hsame. reflexivity.
Defined.

End VersionWarningWitness.

(** ** The controller status chip *)
Section StatusChip.
Import Controller Components.

(** The chip always has something to say about a probe.  For the status
    that [checkControllerHealth] returns, whatever the platform did, the
    chip reads "Healthy", "Unhealthy" or "Unreachable" by the two flags; the
    tooltip of a healthy controller names the version when there is one;
    and the tooltip of any other status is the probe's own error message:
    the two stock tooltips of the component are never needed. *)
Theorem ControllerStatus_chip (config : PluginConfig) (env : Env) (s : State) :
  exists st : ControllerHealthStatus,
    fst (checkControllerHealth config env s) = Returned (Ok st)
    /\ (healthy st = true ->
          ControllerStatus_render false (Some st)
          = Chip "success" "Healthy"
              ("Controller is healthy"
               +:+ match version st with
                   | Some v => " (" +:+ v +:+ ")"
                   | None => ""
                   end))
    /\ (healthy st = false ->
          exists e, Controller.error st = Some e /\ e <> ""
            /\ ControllerStatus_render false (Some st)
               = if reachable st then Chip "warning" "Unhealthy" e
                 else Chip "error" "Unreachable" e).
Proof.
  destruct (checkControllerHealth_shape_aux config env s)
    as [st [Hrun [Herr [Hne Hver]]]].
  exists st. split; [exact Hrun|]. split.
  - intros Hh. unfold ControllerStatus_render. rewrite Hh.
    autorewrite with template. cbn [ToString].
    destruct (version st) as [v|] eqn:Ev; cbn [or_undefined].
    + pose proof (Hver v eq_refl) as Hv. destruct v; [contradiction|].
      cbn [truthy]. autorewrite with template. reflexivity.
    + reflexivity.
  - intros Hh. destruct (Controller.error st) as [e|] eqn:Ee.
    + exists e. split; [reflexivity|]. split; [now apply Hne|].
      unfold ControllerStatus_render. rewrite Hh, Ee.
      unfold Resource.or_else. cbn [or_undefined].
      pose proof (Hne e eq_refl) as Hnz. destruct e; [contradiction|].
      cbn [truthy]. destruct (reachable st); reflexivity.
    + exfalso. rewrite (Herr eq_refl) in Hh. discriminate.
Qed.

End StatusChip.
